(** * StudyPro: the media capture pipeline of [src/components/MediaCapture.tsx]

    A shallow embedding of the crop editor (clamp, the pointer-move handler,
    the crop-save operation), of the upload pipeline ([uploadMedia]) and of
    the capture session controller ([startStream], [stopStream],
    [setupRecorder], [getSupportedMimeType]); then of the pointer gestures
    ([createHandler]), of the other handlers of the component
    ([capturePhoto], [handleCropSave], [handleCropCancel],
    [handleSaveAudio], [handleDiscardAudio], [handleFileUpload], the
    recorder's [ondataavailable] and [onstop], the buttons of the popup), and
    of the attachment list of the calling screen
    ([src/components/StudyDay.tsx]: the [onUpload] callback and
    [executeDelete]).  Handlers that await are run to their end in one
    step, except [startStream], which is also given in its two halves.

    Numbers.  The crop editor is given twice.  [Double] has the numbers of
    the program, IEEE 754 binary64 ([PrimFloat]), and every statement about
    a number the editor computes (the bounds and the minimum size of the
    rectangle, the dimensions of the saved raster) is made there.
    [CropEditor] reads the same code over exact rationals ([Q]); it is used
    only where rounding cannot enter: for [clamp], which returns one of its
    arguments unchanged, and for the order of the pointer events of a
    gesture, where no result of arithmetic is compared.

    Strings.  A JavaScript string is modelled by [string]; a character
    stands for one code unit. *)

From Stdlib Require Import QArith Qminmax Qround ZArith Lia Lqa.
From Stdlib Require Import String Ascii List Bool DecimalString.
From Stdlib Require PrimFloat FloatOps SpecFloat Uint63.
Import ListNotations.

(* ================================================================== *)
(** ** The crop editor *)
(* ================================================================== *)

Module CropEditor.

Open Scope Q_scope.

(** [const clamp = (val, min, max) => Math.min(Math.max(val, min), max)] *)
Definition clamp (val min max : Q) : Q := Qmin (Qmax val min) max.

(** [useState({ x: 0, y: 0, width: 100, height: 100 })] *)
Record crop : Type := mkCrop { x : Q; y : Q; width : Q; height : Q }.

Definition initialCrop : crop := {| x := 0; y := 0; width := 100; height := 100 |}.

(** Field assignment on the copy [newCrop = { ...startCrop }]. *)
Definition set_x (c : crop) (v : Q) : crop :=
  {| x := v; y := y c; width := width c; height := height c |}.
Definition set_y (c : crop) (v : Q) : crop :=
  {| x := x c; y := v; width := width c; height := height c |}.
Definition set_width (c : crop) (v : Q) : crop :=
  {| x := x c; y := y c; width := v; height := height c |}.
Definition set_height (c : crop) (v : Q) : crop :=
  {| x := x c; y := y c; width := width c; height := v |}.

(** [mode: 'move' | 'nw' | 'ne' | 'sw' | 'se'] *)
Inductive mode : Type := move | nw | ne | sw | se.

Definition mode_string (m : mode) : string :=
  match m with
  | move => "move" | nw => "nw" | ne => "ne" | sw => "sw" | se => "se"
  end.

(** [s.includes(t)] *)
Definition includes (s t : string) : bool :=
  match String.index 0 t s with Some _ => true | None => false end.

(** The interaction snapshot taken at pointer-down. *)
Record interaction : Type := mkInteraction {
  startX : Q;
  startY : Q;
  startCrop : crop;
  imode : mode
}.

(** [imgRef.current.getBoundingClientRect()] and the pointer event. *)
Record DOMRect : Type := mkRect { rect_width : Q; rect_height : Q }.
Record PointerEvent : Type := mkEvent { clientX : Q; clientY : Q }.

Definition minSize : Q := 10.

(** The body of [handlePointerMove] from [let newCrop = { ...startCrop }]
    to the argument of [setCrop], as a function of the snapshot, the handle
    and the two deltas, read over exact rationals: the sums and differences
    are not rounded here as the program rounds them ([Double.computeCrop]
    has the program's arithmetic). *)
Definition computeCrop (startCrop : crop) (m : mode) (deltaX deltaY : Q) : crop :=
  let newCrop := startCrop in
  if String.eqb (mode_string m) "move" then
    let newCrop := set_x newCrop (clamp (x startCrop + deltaX) 0 (100 - width startCrop)) in
    let newCrop := set_y newCrop (clamp (y startCrop + deltaY) 0 (100 - height startCrop)) in
    newCrop
  else
    let newCrop :=
      if includes (mode_string m) "n" then
        let maxY := y startCrop + height startCrop - minSize in
        let newCrop := set_y newCrop (clamp (y startCrop + deltaY) 0 maxY) in
        set_height newCrop (height startCrop + (y startCrop - y newCrop))
      else newCrop in
    let newCrop :=
      if includes (mode_string m) "s" then
        let maxHeight := 100 - y startCrop in
        set_height newCrop (clamp (height startCrop + deltaY) minSize maxHeight)
      else newCrop in
    let newCrop :=
      if includes (mode_string m) "w" then
        let maxX := x startCrop + width startCrop - minSize in
        let newCrop := set_x newCrop (clamp (x startCrop + deltaX) 0 maxX) in
        set_width newCrop (width startCrop + (x startCrop - x newCrop))
      else newCrop in
    let newCrop :=
      if includes (mode_string m) "e" then
        let maxWidth := 100 - x startCrop in
        set_width newCrop (clamp (width startCrop + deltaX) minSize maxWidth)
      else newCrop in
    newCrop.

(** [handlePointerMove]: [None] is an early [return] (no [setCrop]),
    [Some c] is [setCrop(c)]. *)
Definition handlePointerMove
    (interactionRef : option interaction) (imgRef : option DOMRect)
    (e : PointerEvent) : option crop :=
  match interactionRef, imgRef with
  | Some i, Some rect =>
      if Qeq_bool (rect_width rect) 0 || Qeq_bool (rect_height rect) 0 then None
      else
        let deltaX := ((clientX e - startX i) / rect_width rect) * 100 in
        let deltaY := ((clientY e - startY i) / rect_height rect) * 100 in
        Some (computeCrop (startCrop i) (imode i) deltaX deltaY)
  | _, _ => None
  end.

(** The natural image behind [imgRef] and the off-screen canvas. *)
Record HTMLImage : Type := mkImage { naturalWidth : Z; naturalHeight : Z }.
Record canvas : Type := mkCanvas { canvas_width : Z; canvas_height : Z }.


End CropEditor.

(* ================================================================== *)
(** ** String operations of the platform used by the upload pipeline *)
(* ================================================================== *)

Module JS.

Open Scope string_scope.
Open Scope Z_scope.

Fixpoint lastIndexOf_from (s : string) (c : ascii) (i found : Z) : Z :=
  match s with
  | EmptyString => found
  | String a s' => lastIndexOf_from s' c (i + 1) (if Ascii.eqb a c then i else found)
  end.

(** [s.lastIndexOf(c)] for a one-character [c]: the last position of [c],
    [-1] when [c] does not occur. *)
Definition lastIndexOf (s : string) (c : ascii) : Z := lastIndexOf_from s c 0 (-1).

(** [s.substring(a, b)]: both indices are clamped to [0, s.length] and
    swapped when [a > b]. *)
Definition substring (s : string) (a b : Z) : string :=
  let len := Z.of_nat (String.length s) in
  let a' := Z.min (Z.max a 0) len in
  let b' := Z.min (Z.max b 0) len in
  let lo := Z.min a' b' in
  let hi := Z.max a' b' in
  String.substring (Z.to_nat lo) (Z.to_nat (hi - lo)) s.

(** [s.substring(a)] *)
Definition substringFrom (s : string) (a : Z) : string :=
  substring s a (Z.of_nat (String.length s)).

(** [s.replace(/[class]/g, r)]: every character of the class becomes [r]. *)
Fixpoint replaceAll (class : ascii -> bool) (r : string) (s : string) : string :=
  match s with
  | EmptyString => EmptyString
  | String a s' =>
      (if class a then r else String a EmptyString) ++ replaceAll class r s'
  end.

Definition in_range (lo hi c : ascii) : bool :=
  (N_of_ascii lo <=? N_of_ascii c)%N && (N_of_ascii c <=? N_of_ascii hi)%N.

Definition upper (c : ascii) : ascii :=
  if in_range "a" "z" c then ascii_of_N (N_of_ascii c - 32) else c.

(** [s.toUpperCase()] on the letters a-z. *)
Fixpoint toUpperCase (s : string) : string :=
  match s with
  | EmptyString => EmptyString
  | String a s' => String (upper a) (toUpperCase s')
  end.

(** [s.charAt(0)] *)
Definition charAt0 (s : string) : string :=
  match s with
  | EmptyString => EmptyString
  | String a _ => String a EmptyString
  end.

(** A non-negative integer in a template literal. *)
Definition decimal (n : Z) : string := NilZero.string_of_uint (N.to_uint (Z.to_N n)).

(** [c] occurs in [s]. *)
Fixpoint occurs (c : ascii) (s : string) : bool :=
  match s with
  | EmptyString => false
  | String a s' => Ascii.eqb a c || occurs c s'
  end.

(** [s] character by character. *)
Fixpoint map_chars (f : ascii -> ascii) (s : string) : string :=
  match s with
  | EmptyString => EmptyString
  | String a s' => String (f a) (map_chars f s')
  end.

End JS.

(* ================================================================== *)
(** ** The upload pipeline *)
(* ================================================================== *)

Module Upload.

Open Scope string_scope.
Open Scope Z_scope.

(** [MediaType] of [../types]: of its literals ['image' | 'video' | 'audio' |
    'document' | 'note'] the four this component passes to [uploadMedia];
    no caller in it passes ['note']. *)
Inductive MediaType : Type := image | video | audio | document.

Definition type_string (t : MediaType) : string :=
  match t with
  | image => "image" | video => "video" | audio => "audio" | document => "document"
  end.

(** The argument [blob: Blob | File]: a captured blob has a size only, a
    picked file also has a name ([blob instanceof File]). *)
Inductive media : Type :=
| Blob (size : Z)
| File (size : Z) (name : string).

Definition size (b : media) : Z :=
  match b with Blob n => n | File n _ => n end.

Inductive NotificationType : Type := success | error | info.

(** The object inserted into [media_attachments]. *)
Record row : Type := mkRow {
  study_log_id : string;
  type : MediaType;
  file_url : string;
  file_name : string
}.

(** [MediaAttachment] of [../types]:
    [{id, study_log_id, type, file_url, file_name, created_at}], the
    inserted fields with the generated id and timestamp. *)
Record MediaAttachment : Type := mkAttachment {
  id : string;
  created_at : string;
  fields : row
}.

(** What one invocation does to the outside, in order. *)
Inductive event : Type :=
| Notify (message : string) (kind : NotificationType)
| SetIsCapturingNull
| SetUploading (b : bool)
| SetRecording (b : bool)
| SetRecordedAudioNull
| AuthGetUser
| StorageUpload (filePath : string) (blob : media)
| GetPublicUrl (filePath : string)
| InsertAttachment (r : row)
| OnUpload (data : MediaAttachment).

(** The calls that reach the backend. *)
Definition is_network (e : event) : bool :=
  match e with
  | AuthGetUser | StorageUpload _ _ | GetPublicUrl _ | InsertAttachment _ => true
  | _ => false
  end.

Definition is_onUpload (e : event) : bool :=
  match e with OnUpload _ => true | _ => false end.

Definition is_insert (e : event) : bool :=
  match e with InsertAttachment _ => true | _ => false end.

Definition is_storage_write (e : event) : bool :=
  match e with StorageUpload _ _ => true | _ => false end.

Definition is_getUser (e : event) : bool :=
  match e with AuthGetUser => true | _ => false end.

(** What the surroundings answer during one invocation. *)
Record world : Type := mkWorld {
  isMounted_at_check : bool;      (* isMounted.current in the size branch *)
  recording : bool;               (* the state variable [recording] *)
  user : option string;           (* user.id, or no user *)
  random_id : string;             (* Math.random().toString(36).substring(2, 10) *)
  now : Z;                        (* Date.now() *)
  localeDate : string;            (* new Date().toLocaleDateString() *)
  localeTime : string;            (* new Date().toLocaleTimeString() *)
  uploadError : option string;    (* message of the storage write's error *)
  publicUrl : string -> string;
  insert_data : option MediaAttachment;
  insert_error : option string;   (* message of the insert's error *)
  isMounted_at_end : bool         (* isMounted.current after the awaits *)
}.

(** Computations that log events and may throw an error message. *)
Definition io (A : Type) : Type := list event * (string + A).

Definition ret {A} (a : A) : io A := ([], inr a).
Definition bind {A B} (m : io A) (k : A -> io B) : io B :=
  match m with
  | (t, inl err) => (t, inl err)
  | (t, inr a) => let (t', r) := k a in ((t ++ t')%list, r)
  end.
Definition emit (e : event) : io unit := ([e], inr tt).
Definition throw {A} (err : string) : io A := ([], inl err).

Notation "x <- m ;; k" := (bind m (fun x => k))
  (at level 61, m at next level, right associativity).
Notation "m ;;; k" := (bind m (fun _ => k))
  (at level 61, right associativity).

(** [try { body } catch (err) { handler err } finally { final }] *)
Definition try_catch_finally (body : io unit) (handler : string -> io unit)
    (final : io unit) : io unit :=
  match body with
  | (t, inl err) => let (t', r) := handler err in
                    match r with
                    | inl err' => let (t'', _) := final in ((t ++ t' ++ t'')%list, inl err')
                    | inr _ => let (t'', r') := final in ((t ++ t' ++ t'')%list, r')
                    end
  | (t, inr _) => let (t', r) := final in ((t ++ t')%list, r)
  end.

(** The character class [a-zA-Z0-9-_] of the sanitising expression. *)
Definition kept (c : ascii) : bool :=
  JS.in_range "a" "z" c || JS.in_range "A" "Z" c || JS.in_range "0" "9" c
  || Ascii.eqb c "-" || Ascii.eqb c "_".

(** [baseName.replace(/[^a-zA-Z0-9-_]/g, '_')] *)
Definition sanitize (baseName : string) : string :=
  JS.replaceAll (fun c => negb (kept c)) "_" baseName.

(** The naming block of [uploadMedia]: [(storageFileName, dbFileName)]. *)
Definition fileNames (w : world) (blob : media) (type : MediaType) : string * string :=
  let uniqueId := random_id w in
  let timestamp := now w in
  match blob with
  | File _ name =>
      let lastDotIndex := JS.lastIndexOf name "." in
      let baseName := name in
      let ext := "" in
      let (baseName, ext) :=
        if negb (lastDotIndex =? -1) then
          (JS.substring name 0 lastDotIndex, JS.substringFrom name (lastDotIndex + 1))
        else (baseName, ext) in
      let sanitizedBaseName := sanitize baseName in
      (uniqueId ++ "_" ++ sanitizedBaseName ++ "." ++ ext, name)
  | Blob _ =>
      let ext := match type with image => "jpg" | _ => "webm" end in
      let storageFileName :=
        uniqueId ++ "_" ++ type_string type ++ "_" ++ JS.decimal timestamp ++ "." ++ ext in
      let dateStr := JS.replaceAll (Ascii.eqb "/") "-" (localeDate w) in
      let timeStr := JS.replaceAll (Ascii.eqb ":") "-" (localeTime w) in
      (storageFileName,
       JS.toUpperCase (JS.charAt0 (type_string type)) ++ JS.substringFrom (type_string type) 1
         ++ " Capture " ++ dateStr ++ " " ++ timeStr ++ "." ++ ext)
  end.

Definition storageFileName (w : world) (blob : media) (type : MediaType) : string :=
  fst (fileNames w blob type).
Definition dbFileName (w : world) (blob : media) (type : MediaType) : string :=
  snd (fileNames w blob type).

Definition sizeLimit : Z := 50 * 1024 * 1024.

(** [uploadMedia], for the component with prop [logId]. *)
Definition uploadMedia (logId : string) (w : world) (blob : media) (type : MediaType)
    : io unit :=
  let fileSizeInBytes := size blob in
  if fileSizeInBytes >? sizeLimit then
    emit (Notify "File too large. Maximum size limit is 50MB." error) ;;;
    (if isMounted_at_check w then
       emit SetIsCapturingNull ;;;
       emit (SetUploading false) ;;;
       (if recording w then emit (SetRecording false) else ret tt)
     else ret tt)
  else
    emit (SetUploading true) ;;;
    emit AuthGetUser ;;;
    match user w with
    | None =>
        emit (Notify "Authentication required to upload." error) ;;;
        emit (SetUploading false)
    | Some user_id =>
        let storageFileName := storageFileName w blob type in
        let dbFileName := dbFileName w blob type in
        let filePath := user_id ++ "/" ++ storageFileName in
        try_catch_finally
          (emit (StorageUpload filePath blob) ;;;
           match uploadError w with
           | Some uploadError => throw uploadError
           | None =>
               emit (GetPublicUrl filePath) ;;;
               emit (InsertAttachment
                       {| study_log_id := logId; type := type;
                          file_url := publicUrl w filePath; file_name := dbFileName |}) ;;;
               match insert_error w with
               | Some err => throw err
               | None =>
                   match isMounted_at_end w, insert_data w with
                   | true, Some data => emit (OnUpload data)
                   | _, _ => ret tt
                   end
               end
           end)
          (fun message => emit (Notify ("Storage error: " ++ message) error))
          (if isMounted_at_end w then
             emit (SetUploading false) ;;;
             emit SetIsCapturingNull ;;;
             emit SetRecordedAudioNull
           else ret tt)
    end.

Definition trace (m : io unit) : list event := fst m.

(** Every step of the pipeline succeeded: the size check, the user lookup,
    the storage write and the metadata insert. *)
Definition succeeded (w : world) (blob : media) : bool :=
  (size blob <=? sizeLimit)
  && (match user w with Some _ => true | None => false end)
  && (match uploadError w with None => true | Some _ => false end)
  && (match insert_error w with None => true | Some _ => false end).

Definition count (p : event -> bool) (t : list event) : nat :=
  List.length (List.filter p t).

Definition alphanumeric (c : ascii) : bool :=
  JS.in_range "a" "z" c || JS.in_range "A" "Z" c || JS.in_range "0" "9" c.

(** The sanitised base name as the specification words it: every character
    that is not alphanumeric is replaced (by the underscore of its example). *)
Definition spec_sanitize (baseName : string) : string :=
  JS.replaceAll (fun c => negb (alphanumeric c)) "_" baseName.

(** A world in which every step succeeds, for examples. *)
Definition world_ok (mounted : bool) : world :=
  mkWorld true false (Some "u1") "k3j9x0aa" 1700000000000 "1/2/2024" "10:30:00 AM"
          None (fun p => "https://cdn/" ++ p)
          (Some (mkAttachment "a1" "2024-01-02"
                   (mkRow "log-1" image "https://cdn/u1/k3j9x0aa_image_1700000000000.jpg"
                          "Image Capture 1-2-2024 10-30-00 AM.jpg")))
          None mounted.

End Upload.

(* ================================================================== *)
(** ** The capture session controller and the recorder adapter *)
(* ================================================================== *)

Module Controller.

Open Scope string_scope.

(** ['photo' | 'video' | 'audio'] *)
Inductive captureType : Type := photo | video | audio.

Definition captureType_eqb (a b : captureType) : bool :=
  match a, b with
  | photo, photo | video, video | audio, audio => true
  | _, _ => false
  end.

(** A [MediaStream] object, by identity. *)
Definition stream : Type := nat.

(** [new MediaRecorder(stream, { mimeType })], with the [type] its [onstop]
    handler closes over. *)
Record recorder : Type := mkRecorder {
  rec_stream : stream;
  rec_mimeType : string;
  rec_type : captureType
}.

(** The refs and state variables of the component, together with the
    streams of the platform whose tracks have not been stopped ([live]) and
    the notifications raised so far. *)
Record state : Type := mkState {
  streamRef : option stream;
  mediaRecorderRef : option recorder;
  isMounted : bool;
  isCapturing : option captureType;
  recording : bool;
  recordedAudio : option string;
  live : list stream;
  notifications : list string
}.

Definition set_streamRef (st : state) (v : option stream) : state :=
  mkState v (mediaRecorderRef st) (isMounted st) (isCapturing st) (recording st)
          (recordedAudio st) (live st) (notifications st).
Definition set_mediaRecorderRef (st : state) (v : option recorder) : state :=
  mkState (streamRef st) v (isMounted st) (isCapturing st) (recording st)
          (recordedAudio st) (live st) (notifications st).
Definition setIsCapturing (st : state) (v : option captureType) : state :=
  mkState (streamRef st) (mediaRecorderRef st) (isMounted st) v (recording st)
          (recordedAudio st) (live st) (notifications st).
Definition setRecording (st : state) (v : bool) : state :=
  mkState (streamRef st) (mediaRecorderRef st) (isMounted st) (isCapturing st) v
          (recordedAudio st) (live st) (notifications st).
Definition setRecordedAudio (st : state) (v : option string) : state :=
  mkState (streamRef st) (mediaRecorderRef st) (isMounted st) (isCapturing st)
          (recording st) v (live st) (notifications st).
Definition set_live (st : state) (v : list stream) : state :=
  mkState (streamRef st) (mediaRecorderRef st) (isMounted st) (isCapturing st)
          (recording st) (recordedAudio st) v (notifications st).
Definition notify (st : state) (message : string) : state :=
  mkState (streamRef st) (mediaRecorderRef st) (isMounted st) (isCapturing st)
          (recording st) (recordedAudio st) (live st) (notifications st ++ [message])%list.

(** [s.getTracks().forEach(t => t.stop())] *)
Definition stopTracks (st : state) (s : stream) : state :=
  set_live st (List.remove Nat.eq_dec s (live st)).

Section Recorder.

(** [MediaRecorder.isTypeSupported] *)
Variable isTypeSupported : string -> bool.

Definition videoTypes : list string :=
  ["video/webm;codecs=vp8"; "video/webm"; "video/mp4"; "video/quicktime"].
Definition audioTypes : list string :=
  ["audio/webm"; "audio/mp4"; "audio/ogg"; "audio/aac"].

(** [possibleTypes.find(t => MediaRecorder.isTypeSupported(t)) || ''] *)
Definition getSupportedMimeType (type : captureType) : string :=
  let possibleTypes := if captureType_eqb type video then videoTypes else audioTypes in
  match List.find isTypeSupported possibleTypes with
  | Some t => if String.eqb t "" then "" else t
  | None => ""
  end.

Definition setupRecorder (st : state) (s : stream) (type : captureType) : state :=
  let mimeType := getSupportedMimeType type in
  if String.eqb mimeType "" then
    notify st "Your browser does not support recording media."
  else
    let recorder := {| rec_stream := s; rec_mimeType := mimeType; rec_type := type |} in
    set_mediaRecorderRef st (Some recorder).

(** [stopStream] *)
Definition stopStream (st : state) : state :=
  let st :=
    match streamRef st with
    | Some s => set_streamRef (stopTracks st s) None
    | None => st
    end in
  if isMounted st then
    setRecordedAudio (setRecording (setIsCapturing st None) false) None
  else st.

(** The answer of [navigator.mediaDevices.getUserMedia]: a new stream with
    live tracks, or a rejection. *)
Inductive response : Type :=
| Granted (s : stream)
| Rejected.

(** [startStream] up to its [await]: a held stream is released. *)
Definition startStream_release (st : state) : state :=
  match streamRef st with
  | Some _ => stopStream st
  | None => st
  end.

(** [startStream] from the [await] on, when [getUserMedia] has answered. *)
Definition startStream_resume (st : state) (type : captureType) (r : response) : state :=
  match r with
  | Granted s =>
      let st := set_live st (s :: live st) in
      if negb (isMounted st) then stopTracks st s
      else
        let st := set_streamRef st (Some s) in
        let st := setIsCapturing st (Some type) in
        let st := setRecordedAudio st None in
        if captureType_eqb type audio || captureType_eqb type video
        then setupRecorder st s type
        else st
  | Rejected =>
      let st := notify st "Media access denied. Please check your browser permissions." in
      setIsCapturing st None
  end.

(** A start operation that runs with nothing in between. *)
Definition startStream (st : state) (type : captureType) (r : response) : state :=
  startStream_resume (startStream_release st) type r.

End Recorder.

(** The streams the controller holds. *)
Definition held (st : state) : list stream :=
  match streamRef st with Some s => [s] | None => [] end.

(** The held stream is the only one with live tracks. *)
Definition coherent (st : state) : Prop := live st = held st.

(** States and a platform for examples: no capture running; stream [s]
    held by a photo session; a platform that records ogg and aac only. *)
Definition idle : state := mkState None None true None false None [] [].
Definition holding (s : stream) : state :=
  mkState (Some s) None true (Some photo) false None [s] [].
Definition ogg_or_aac (t : string) : bool :=
  String.eqb t "audio/ogg" || String.eqb t "audio/aac".
Definition nothing_supported (t : string) : bool := false.

End Controller.

(* ================================================================== *)
(** ** The pointer gestures of the crop editor *)
(* ================================================================== *)

Module Gesture.

Import CropEditor.
Open Scope Q_scope.

(** The editor between two events: the [crop] state variable and
    [interactionRef.current]. *)
Record editor : Type := mkEditor {
  current : crop;
  interactionRef : option interaction
}.

(** [useState({ x: 0, y: 0, width: 100, height: 100 })], [useRef(null)] *)
Definition initialEditor : editor := mkEditor initialCrop None.

(** The three handlers [createHandler(mode)] gives a handle.  A move event
    comes with what [imgRef.current] is then: no image, or its rectangle. *)
Inductive pointer : Type :=
| onPointerDown (m : mode) (e : PointerEvent)
| onPointerMove (imgRef : option DOMRect) (e : PointerEvent)
| onPointerUp.

Definition handle (ed : editor) (p : pointer) : editor :=
  match p with
  | onPointerDown m e =>
      mkEditor (current ed)
               (Some {| startX := clientX e; startY := clientY e;
                        startCrop := current ed; imode := m |})
  | onPointerMove imgRef e =>
      match handlePointerMove (interactionRef ed) imgRef e with
      | Some newCrop => mkEditor newCrop (interactionRef ed)
      | None => ed
      end
  | onPointerUp => mkEditor (current ed) None
  end.

(** The editor after a sequence of pointer events. *)
Definition after (ed : editor) (ps : list pointer) : editor :=
  List.fold_left handle ps ed.

(** The deltas [handlePointerMove] computes for a pointer at [e], in
    percent of the rendered image. *)
Definition deltaX (i : interaction) (rect : DOMRect) (e : PointerEvent) : Q :=
  ((clientX e - startX i) / rect_width rect) * 100.
Definition deltaY (i : interaction) (rect : DOMRect) (e : PointerEvent) : Q :=
  ((clientY e - startY i) / rect_height rect) * 100.

Definition is_move (p : pointer) : bool :=
  match p with onPointerMove _ _ => true | _ => false end.

End Gesture.

(* ================================================================== *)
(** ** The handlers of the capture component *)
(* ================================================================== *)

Module Session.

Import Controller.
Open Scope string_scope.

(** The component: the controller's refs and state variables, the other
    state variables of [MediaCapture], the chunk buffer, the object URLs
    revoked so far, and the calls made to the backend and to [onUpload].
    A blob is modelled by its contents, its [size] is their length. *)
Record component : Type := mkComponent {
  ctl : state;
  uploading : bool;
  capturedImage : option string;
  showFlash : bool;
  chunksRef : list string;
  revoked : list string;
  calls : list Upload.event
}.

Definition with_ctl (c : component) (v : state) : component :=
  mkComponent v (uploading c) (capturedImage c) (showFlash c) (chunksRef c)
              (revoked c) (calls c).
Definition setUploading (c : component) (v : bool) : component :=
  mkComponent (ctl c) v (capturedImage c) (showFlash c) (chunksRef c)
              (revoked c) (calls c).
Definition setCapturedImage (c : component) (v : option string) : component :=
  mkComponent (ctl c) (uploading c) v (showFlash c) (chunksRef c)
              (revoked c) (calls c).
Definition setShowFlash (c : component) (v : bool) : component :=
  mkComponent (ctl c) (uploading c) (capturedImage c) v (chunksRef c)
              (revoked c) (calls c).
Definition set_chunksRef (c : component) (v : list string) : component :=
  mkComponent (ctl c) (uploading c) (capturedImage c) (showFlash c) v
              (revoked c) (calls c).
Definition revokeObjectURL (c : component) (url : string) : component :=
  mkComponent (ctl c) (uploading c) (capturedImage c) (showFlash c) (chunksRef c)
              (revoked c ++ [url])%list (calls c).
Definition call (c : component) (e : Upload.event) : component :=
  mkComponent (ctl c) (uploading c) (capturedImage c) (showFlash c) (chunksRef c)
              (revoked c) (calls c ++ [e])%list.

Definition set_isMounted (st : state) (v : bool) : state :=
  mkState (streamRef st) (mediaRecorderRef st) v (isCapturing st) (recording st)
          (recordedAudio st) (live st) (notifications st).

(** The component as first rendered. *)
Definition initial : component := mkComponent idle false None false [] [] [].

(** What an event of [uploadMedia] does to the component. *)
Definition apply_event (c : component) (e : Upload.event) : component :=
  match e with
  | Upload.Notify message _ => with_ctl c (notify (ctl c) message)
  | Upload.SetIsCapturingNull => with_ctl c (setIsCapturing (ctl c) None)
  | Upload.SetUploading b => setUploading c b
  | Upload.SetRecording b => with_ctl c (setRecording (ctl c) b)
  | Upload.SetRecordedAudioNull => with_ctl c (setRecordedAudio (ctl c) None)
  | _ => call c e
  end.

(** [uploadMedia(blob, type)] run to its end in the component. *)
Definition upload (logId : string) (w : Upload.world) (c : component)
    (blob : Upload.media) (type : Upload.MediaType) : component :=
  List.fold_left apply_event (Upload.trace (Upload.uploadMedia logId w blob type)) c.

Definition blobOf (contents : string) : Upload.media :=
  Upload.Blob (Z.of_nat (String.length contents)).

(** [capturePhoto].  [hasVideo]: [videoRef.current] is set; [hasContext]:
    the canvas gave a 2d context; [url]: the object URL of the blob
    [toBlob] produced, if it produced one. *)
Definition capturePhoto (c : component) (hasVideo hasContext : bool)
    (url : option string) : component :=
  if negb hasVideo then c
  else
    let c := setShowFlash c true in
    if negb hasContext then c
    else
      match url with
      | Some u =>
          if isMounted (ctl c)
          then let c := setCapturedImage c (Some u) in
               with_ctl c (stopStream (ctl c))
          else c
      | None => c
      end.

(** The timeout [capturePhoto] sets. *)
Definition flashTimeout (c : component) : component :=
  if isMounted (ctl c) then setShowFlash c false else c.

Definition revokeCaptured (c : component) : component :=
  match capturedImage c with
  | Some u => revokeObjectURL c u
  | None => c
  end.

(** [handleCropSave(blob)] *)
Definition handleCropSave (logId : string) (w : Upload.world) (c : component)
    (blob : string) : component :=
  let c := revokeCaptured c in
  let c := setCapturedImage c None in
  upload logId w c (blobOf blob) Upload.image.

(** [handleSaveAudio] *)
Definition handleSaveAudio (logId : string) (w : Upload.world) (c : component)
    : component :=
  match recordedAudio (ctl c) with
  | Some blob =>
      let c := setUploading c true in
      let c := with_ctl c (setIsCapturing (ctl c) None) in
      upload logId w c (blobOf blob) Upload.audio
  | None => c
  end.

(** [handleDiscardAudio] *)
Definition handleDiscardAudio (c : component) : component :=
  with_ctl c (stopStream (ctl c)).

(** The [onClick] of the record button.  [mediaRecorderRef.current?.stop()]
    and [.start()] are calls to the platform, which answers a recorder
    that exists through [ondataavailable] and [onstop]. *)
Definition toggleRecording (c : component) : component :=
  if recording (ctl c) then c
  else
    let c := set_chunksRef c [] in
    with_ctl c (setRecording (ctl c) true).

(** [recorder.ondataavailable] *)
Definition ondataavailable (c : component) (data : string) : component :=
  if (0 <? String.length data)%nat
  then set_chunksRef c (chunksRef c ++ [data])%list
  else c.

(** [recorder.onstop], of the recorder [r] made by [setupRecorder]; its
    [type] is ['video' | 'audio'], so the branch that is not audio uploads a
    video. *)
Definition onstop (logId : string) (w : Upload.world) (c : component)
    (r : recorder) : component :=
  if negb (isMounted (ctl c)) then c
  else
    let blob := String.concat "" (chunksRef c) in
    let c :=
      if captureType_eqb (rec_type r) audio then
        let c := with_ctl c (setRecordedAudio (ctl c) (Some blob)) in
        with_ctl c (setRecording (ctl c) false)
      else upload logId w c (blobOf blob) Upload.video in
    set_chunksRef c [].

(** The cleanup of the mount effect. *)
Definition unmount (c : component) : component :=
  let c := with_ctl c (set_isMounted (ctl c) false) in
  with_ctl c (stopStream (ctl c)).

(** [canDismiss] *)
Definition canDismiss (c : component) : bool :=
  let isAudio :=
    match isCapturing (ctl c) with Some t => captureType_eqb t audio | None => false end in
  negb isAudio
  || (negb (recording (ctl c))
      && match recordedAudio (ctl c) with Some _ => false | None => true end).

(** The file of the input element: its size, name and declared type. *)
Record picked : Type := mkPicked { p_size : Z; p_name : string; p_type : string }.

(** The type [handleFileUpload] gives a file of declared type [mime]. *)
Definition inferType (mime : string) : Upload.MediaType :=
  if String.prefix "image/" mime then Upload.image
  else if String.prefix "video/" mime then Upload.video
  else if String.prefix "audio/" mime then Upload.audio
  else Upload.document.

(** [handleFileUpload]; [file] is [e.target.files?.[0]]. *)
Definition handleFileUpload (logId : string) (w : Upload.world) (c : component)
    (file : option picked) : component :=
  match file with
  | None => c
  | Some f => upload logId w c (Upload.File (p_size f) (p_name f)) (inferType (p_type f))
  end.

Section Buttons.

Variable isTypeSupported : string -> bool.
Variable logId : string.

(** [handleCropCancel]: the camera is opened again. *)
Definition handleCropCancel (c : component) (r : response) : component :=
  let c := revokeCaptured c in
  let c := setCapturedImage c None in
  with_ctl c (startStream isTypeSupported (ctl c) photo r).

(** The buttons of the capture popup. *)
Inductive click : Type :=
| ClickBackdrop
| ClickClose
| ClickRecord
| ClickDiscard
| ClickSave (w : Upload.world)
| ClickCapture (hasContext : bool) (url : option string).

Definition isAudioMode (c : component) : bool :=
  match isCapturing (ctl c) with Some t => captureType_eqb t audio | None => false end.

Definition reviewing (c : component) : bool :=
  match recordedAudio (ctl c) with Some _ => true | None => false end.

(** What a click does, by what is rendered: the popup only while
    [isCapturing] is set and no captured image is shown; the backdrop acts
    and the close button exists only when [canDismiss]; in audio mode the
    review buttons when there is a recording, else the record button;
    otherwise the video with the capture button. *)
Definition press (c : component) (b : click) : component :=
  match capturedImage c, isCapturing (ctl c) with
  | None, Some _ =>
      match b with
      | ClickBackdrop | ClickClose =>
          if canDismiss c then with_ctl c (stopStream (ctl c)) else c
      | ClickRecord =>
          if isAudioMode c && negb (reviewing c) then toggleRecording c else c
      | ClickDiscard =>
          if isAudioMode c && reviewing c then handleDiscardAudio c else c
      | ClickSave w =>
          if isAudioMode c && reviewing c then handleSaveAudio logId w c else c
      | ClickCapture hasContext url =>
          if isAudioMode c then c else capturePhoto c true hasContext url
      end
  | _, _ => c
  end.

Definition presses (c : component) (bs : list click) : component :=
  List.fold_left press bs c.

End Buttons.

(** An upload event that is a call to the backend or to [onUpload]. *)
Definition is_call (e : Upload.event) : bool :=
  Upload.is_network e || Upload.is_onUpload e.

Definition is_notify (e : Upload.event) : bool :=
  match e with Upload.Notify _ _ => true | _ => false end.

Definition is_error_or_silent (e : Upload.event) : bool :=
  match e with
  | Upload.Notify _ Upload.error => true
  | Upload.Notify _ _ => false
  | _ => true
  end.

(** The [ext] the naming block of [uploadMedia] takes from a name. *)
Definition extension (name : string) : string :=
  let lastDotIndex := JS.lastIndexOf name "." in
  if negb (lastDotIndex =? -1)%Z then JS.substringFrom name (lastDotIndex + 1)%Z else "".

Definition capitalized (t : Upload.MediaType) : string :=
  match t with
  | Upload.image => "Image" | Upload.video => "Video"
  | Upload.audio => "Audio" | Upload.document => "Document"
  end.

(** Components for examples: a recording under review on stream 4; the
    photo view on stream 5; a captured image shown in the crop editor. *)
Definition reviewing_audio : component :=
  mkComponent (mkState (Some 4%nat) (Some (mkRecorder 4%nat "audio/webm" audio)) true
                       (Some audio) false (Some "RIFFdata") [4%nat] [])
              false None false [] [] [].
Definition setRecordedAudioOf (c : component) : component :=
  with_ctl c (setRecordedAudio (ctl c) None).
Definition photo_view : component :=
  mkComponent (mkState (Some 5%nat) None true (Some photo) false None [5%nat] [])
              false None false [] [] [].
Definition cropping : component :=
  mkComponent idle false (Some "blob:frame-1") true [] [] [].

End Session.

(* ================================================================== *)
(** ** The attachment list of the calling screen ([StudyDay]) *)
(* ================================================================== *)

Module StudyDay.

Open Scope string_scope.

(** The state variables of [StudyDay] that the attachment list involves. *)
Record view : Type := mkView {
  log : option string;                        (* log?.id *)
  attachments : list Upload.MediaAttachment;
  selectedMedia : option Upload.MediaAttachment;
  mediaToDelete : option (string * string);   (* {id, fileUrl} *)
  isDeleting : bool
}.

Inductive effect : Type :=
| StorageRemove (filePath : string)
| DeleteRow (id : string)
| Warn (message : string)
| Notify (message : string) (kind : Upload.NotificationType).

(** What an awaited backend call does: it resolves, with or without an
    error object, or it rejects. *)
Inductive answer : Type :=
| Resolved (error : option string)
| Rejected (message : string).

(** What the surroundings answer during one [executeDelete]:
    [decodeURIComponent] gives the decoded text or throws. *)
Record backend : Type := mkBackend {
  decodeURIComponent : string -> string + string;
  removeAnswer : answer;
  deleteAnswer : answer
}.

(** The [onUpload] prop given to [MediaCapture]:
    [(att) => { setAttachments(prev => [att, ...prev]); notify(...) }] *)
Definition onUpload (v : view) (att : Upload.MediaAttachment) : view * list effect :=
  (mkView (log v) (att :: attachments v) (selectedMedia v) (mediaToDelete v) (isDeleting v),
   [Notify "Asset synchronized!" Upload.success]).

(** [initiateDelete(e, id, fileUrl)] *)
Definition initiateDelete (v : view) (id fileUrl : string) : view :=
  mkView (log v) (attachments v) (selectedMedia v) (Some (id, fileUrl)) (isDeleting v).

Definition marker : string := "/student-assets/".

(** The storage part of the [try] block: the effects, and the message of
    what was thrown, if anything. *)
Definition removeFromStorage (be : backend) (fileUrl : string)
    : list effect * option string :=
  match String.index 0 marker fileUrl with
  | Some index =>
      match decodeURIComponent be
              (JS.substringFrom fileUrl (Z.of_nat index + Z.of_nat (String.length marker)))
      with
      | inl thrown => ([], Some thrown)
      | inr filePath =>
          match removeAnswer be with
          | Resolved (Some storageError) =>
              ([StorageRemove filePath; Warn "Storage deletion warning:"], None)
          | Resolved None => ([StorageRemove filePath], None)
          | Rejected thrown => ([StorageRemove filePath], Some thrown)
          end
      end
  | None => ([Warn "Could not parse storage path from URL:"], None)
  end.

Definition isSelected (v : view) (id : string) : bool :=
  match selectedMedia v with
  | Some a => String.eqb (Upload.id a) id
  | None => false
  end.

(** [executeDelete] *)
Definition executeDelete (be : backend) (v : view) : view * list effect :=
  match mediaToDelete v, log v with
  | Some (id, fileUrl), Some _ =>
      let finish (attachments : list Upload.MediaAttachment)
                 (selectedMedia : option Upload.MediaAttachment) : view :=
        mkView (log v) attachments selectedMedia None false in
      let failed (thrown : string) : list effect :=
        [Notify ("Deletion failed: " ++ thrown) Upload.error] in
      match removeFromStorage be fileUrl with
      | (effects, Some thrown) =>
          (finish (attachments v) (selectedMedia v), (effects ++ failed thrown)%list)
      | (effects, None) =>
          match deleteAnswer be with
          | Rejected thrown =>
              (finish (attachments v) (selectedMedia v),
               (effects ++ DeleteRow id :: failed thrown)%list)
          | Resolved _ =>
              (finish
                 (List.filter (fun a => negb (String.eqb (Upload.id a) id)) (attachments v))
                 (if isSelected v id then None else selectedMedia v),
               (effects ++ [DeleteRow id; Notify "Media asset deleted." Upload.info])%list)
          end
      end
  | _, _ => (v, [])
  end.

Definition is_deleteRow (e : effect) : bool :=
  match e with DeleteRow _ => true | _ => false end.

Definition is_storageRemove (e : effect) : bool :=
  match e with StorageRemove _ => true | _ => false end.

(** Nothing in [executeDelete] throws. *)
Definition quiet (be : backend) (fileUrl : string) : Prop :=
  snd (removeFromStorage be fileUrl) = None
  /\ exists error, deleteAnswer be = Resolved error.

(** A backend and an attachment for examples. *)
Definition plain_backend (remove : answer) : backend :=
  mkBackend (fun s => inr s) remove (Resolved None).
Definition sample_attachment : Upload.MediaAttachment :=
  Upload.mkAttachment "a1" "2024-01-02"
    (Upload.mkRow "log-1" Upload.document "https://cdn/student-assets/u1/k3j9x0aa_notes.pdf"
                  "notes.pdf").

End StudyDay.

(* ================================================================== *)
(** ** The crop editor in the program's own arithmetic *)
(* ================================================================== *)

(** The numbers of the crop editor as the program has them: IEEE 754
    binary64, with the operations of the platform rounding to nearest.
    Every statement about a number the editor computes is made here. *)
Module Double.

Import PrimFloat FloatOps SpecFloat.
Open Scope float_scope.

(** [Math.max(a, b)]: NaN when an argument is NaN; of two zeros the
    positive one. *)
Definition Math_max (a b : float) : float :=
  if is_nan a || is_nan b then nan
  else if a <? b then b
  else if b <? a then a
  else match classify a with FloatClass.NZero => b | _ => a end.

(** [Math.min(a, b)]: NaN when an argument is NaN; of two zeros the
    negative one. *)
Definition Math_min (a b : float) : float :=
  if is_nan a || is_nan b then nan
  else if a <? b then a
  else if b <? a then b
  else match classify a with FloatClass.PZero => b | _ => a end.

(** [const clamp = (val, min, max) => Math.min(Math.max(val, min), max)] *)
Definition clamp (val min max : float) : float := Math_min (Math_max val min) max.

(** [useState({ x: 0, y: 0, width: 100, height: 100 })] *)
Record crop : Type := mkCrop { x : float; y : float; width : float; height : float }.

Definition initialCrop : crop := {| x := 0; y := 0; width := 100; height := 100 |}.

Definition set_x (c : crop) (v : float) : crop :=
  {| x := v; y := y c; width := width c; height := height c |}.
Definition set_y (c : crop) (v : float) : crop :=
  {| x := x c; y := v; width := width c; height := height c |}.
Definition set_width (c : crop) (v : float) : crop :=
  {| x := x c; y := y c; width := v; height := height c |}.
Definition set_height (c : crop) (v : float) : crop :=
  {| x := x c; y := y c; width := width c; height := v |}.

Record interaction : Type := mkInteraction {
  startX : float;
  startY : float;
  startCrop : crop;
  imode : CropEditor.mode
}.

Record DOMRect : Type := mkRect { rect_width : float; rect_height : float }.
Record PointerEvent : Type := mkEvent { clientX : float; clientY : float }.

Definition minSize : float := 10.

(** The body of [handlePointerMove] from [let newCrop = { ...startCrop }]
    to the argument of [setCrop]. *)
Definition computeCrop (startCrop : crop) (m : CropEditor.mode) (deltaX deltaY : float)
    : crop :=
  let mode := CropEditor.mode_string m in
  let newCrop := startCrop in
  if String.eqb mode "move" then
    let newCrop := set_x newCrop (clamp (x startCrop + deltaX) 0 (100 - width startCrop)) in
    let newCrop := set_y newCrop (clamp (y startCrop + deltaY) 0 (100 - height startCrop)) in
    newCrop
  else
    let newCrop :=
      if CropEditor.includes mode "n" then
        let maxY := y startCrop + height startCrop - minSize in
        let newCrop := set_y newCrop (clamp (y startCrop + deltaY) 0 maxY) in
        set_height newCrop (height startCrop + (y startCrop - y newCrop))
      else newCrop in
    let newCrop :=
      if CropEditor.includes mode "s" then
        let maxHeight := 100 - y startCrop in
        set_height newCrop (clamp (height startCrop + deltaY) minSize maxHeight)
      else newCrop in
    let newCrop :=
      if CropEditor.includes mode "w" then
        let maxX := x startCrop + width startCrop - minSize in
        let newCrop := set_x newCrop (clamp (x startCrop + deltaX) 0 maxX) in
        set_width newCrop (width startCrop + (x startCrop - x newCrop))
      else newCrop in
    let newCrop :=
      if CropEditor.includes mode "e" then
        let maxWidth := 100 - x startCrop in
        set_width newCrop (clamp (width startCrop + deltaX) minSize maxWidth)
      else newCrop in
    newCrop.

(** [handlePointerMove]: [None] is an early [return], [Some c] is
    [setCrop(c)]. *)
Definition handlePointerMove
    (interactionRef : option interaction) (imgRef : option DOMRect)
    (e : PointerEvent) : option crop :=
  match interactionRef, imgRef with
  | Some i, Some rect =>
      if (rect_width rect =? 0) || (rect_height rect =? 0) then None
      else
        let deltaX := ((clientX e - startX i) / rect_width rect) * 100 in
        let deltaY := ((clientY e - startY i) / rect_height rect) * 100 in
        Some (computeCrop (startCrop i) (imode i) deltaX deltaY)
  | _, _ => None
  end.

(** The editor between two events, and the handlers of [createHandler]. *)
Record editor : Type := mkEditor {
  current : crop;
  interactionRef : option interaction
}.

Definition initialEditor : editor := mkEditor initialCrop None.

Inductive pointer : Type :=
| onPointerDown (m : CropEditor.mode) (e : PointerEvent)
| onPointerMove (imgRef : option DOMRect) (e : PointerEvent)
| onPointerUp.

Definition handle (ed : editor) (p : pointer) : editor :=
  match p with
  | onPointerDown m e =>
      mkEditor (current ed)
               (Some {| startX := clientX e; startY := clientY e;
                        startCrop := current ed; imode := m |})
  | onPointerMove imgRef e =>
      match handlePointerMove (interactionRef ed) imgRef e with
      | Some newCrop => mkEditor newCrop (interactionRef ed)
      | None => ed
      end
  | onPointerUp => mkEditor (current ed) None
  end.

Definition after (ed : editor) (ps : list pointer) : editor :=
  List.fold_left handle ps ed.

Definition is_move (p : pointer) : bool :=
  match p with onPointerMove _ _ => true | _ => false end.

(** The invariants of the data model, evaluated in the program's
    arithmetic. *)
Definition in_bounds (c : crop) : bool :=
  (0 <=? x c) && (0 <=? y c) && (x c + width c <=? 100) && (y c + height c <=? 100).
Definition min_sized (c : crop) : bool :=
  (minSize <=? width c) && (minSize <=? height c).

(** The exact value of a finite double. *)
Definition exact (f : float) : option Q :=
  match Prim2SF f with
  | S754_zero _ => Some (inject_Z 0)
  | S754_finite s m e =>
      let magnitude :=
        match e with
        | Z0 => inject_Z (Zpos m)
        | Zpos p => inject_Z (Zpos m * Zpos (Pos.pow 2 p))
        | Zneg p => Qmake (Zpos m) (Pos.pow 2 p)
        end in
      Some (if s then Qopp magnitude else magnitude)
  | _ => None
  end.

(** The number of an [unsigned long] such as [naturalWidth] (below 2^32,
    hence exact). *)
Definition number (n : Z) : float := of_uint63 (Uint63.of_Z n).

(** A number assigned to an [unsigned long] attribute: NaN and the
    infinities become 0, the fraction is dropped towards zero, and the
    result is reduced modulo 2^32. *)
Definition toUnsignedLong (f : float) : Z :=
  match Prim2SF f with
  | S754_finite s m e =>
      let magnitude :=
        match e with
        | Z0 => Zpos m
        | Zpos p => (Zpos m * Zpos (Pos.pow 2 p))%Z
        | Zneg p => (Zpos m / Zpos (Pos.pow 2 p))%Z
        end in
      ((if s then - magnitude else magnitude) mod 2 ^ 32)%Z
  | _ => 0%Z
  end.

(** [canvas.width] and [canvas.height] reflect their content attributes: a
    value above 2147483647 sets the default (300 for the width, 150 for the
    height). *)
Definition reflected (default v : Z) : Z :=
  if (v <=? 2147483647)%Z then v else default.

(** [handleSave]: [None] is an early [return]; [Some cv] is the canvas whose
    bitmap is drawn and handed to [toBlob]. *)
Definition handleSave (imgRef : option CropEditor.HTMLImage) (hasContext : bool)
    (c : crop) : option CropEditor.canvas :=
  match imgRef with
  | None => None
  | Some img =>
      let scaleX := number (CropEditor.naturalWidth img) / 100 in
      let scaleY := number (CropEditor.naturalHeight img) / 100 in
      let pixelW := width c * scaleX in
      let pixelH := height c * scaleY in
      let cv := {| CropEditor.canvas_width := reflected 300 (toUnsignedLong pixelW);
                   CropEditor.canvas_height := reflected 150 (toUnsignedLong pixelH) |} in
      if hasContext then Some cv else None
  end.

(** The doubles [handleSave] assigns to [canvas.width] and [canvas.height]. *)
Definition pixelW (img : CropEditor.HTMLImage) (c : crop) : float :=
  width c * (number (CropEditor.naturalWidth img) / 100).
Definition pixelH (img : CropEditor.HTMLImage) (c : crop) : float :=
  height c * (number (CropEditor.naturalHeight img) / 100).



(** A gesture: a press on handle [m] at [(x0, y0)], a move to [(x1, y1)]
    over an image rendered [w] by [h], and the release. *)
Definition drag (m : CropEditor.mode) (w h x0 y0 x1 y1 : float) : list pointer :=
  [onPointerDown m (mkEvent x0 y0);
   onPointerMove (Some (mkRect w h)) (mkEvent x1 y1);
   onPointerUp].

End Double.

(* ================================================================== *)
(** ** Properties of the crop editor *)
(* ================================================================== *)

Module CropFacts.

Import CropEditor.
Open Scope Q_scope.

Lemma clamp_le_max (v lo hi : Q) : clamp v lo hi <= hi.
Proof. unfold clamp. apply Q.le_min_r. Qed.

Lemma clamp_ge_min (v lo hi : Q) : lo <= hi -> lo <= clamp v lo hi.
Proof.
  intro Hle. unfold clamp.
  apply Q.min_glb; [apply Q.le_max_r | exact Hle].
Qed.

(** With crossed bounds the upper one wins. *)
Lemma clamp_crossed (v lo hi : Q) : hi < lo -> clamp v lo hi = hi.
Proof.
  intro Hlt. unfold clamp, Qmin, GenericMinMax.gmin.
  pose proof (Q.le_max_r v lo) as Hmax.
  destruct (Qcompare_spec (Qmax v lo) hi); try reflexivity; lra.
Qed.

Lemma handlePointerMove_updates (i : interaction) (rect : DOMRect) (e : PointerEvent) :
  ~ rect_width rect == 0 -> ~ rect_height rect == 0 ->
  handlePointerMove (Some i) (Some rect) e =
  Some (computeCrop (startCrop i) (imode i)
          ((clientX e - startX i) / rect_width rect * 100)
          ((clientY e - startY i) / rect_height rect * 100)).
Proof.
  intros Hw Hh. unfold handlePointerMove.
  destruct (Qeq_bool (rect_width rect) 0) eqn:Ew.
  { apply Qeq_bool_iff in Ew. contradiction. }
  destruct (Qeq_bool (rect_height rect) 0) eqn:Eh.
  { apply Qeq_bool_iff in Eh. contradiction. }
  reflexivity.
Qed.

(** C9 (as amended): for all [v] and all bounds with [lo <= hi],
    [clamp v lo hi] is [lo] when [v < lo], [hi] when [v > hi], and [v]
    otherwise.  The results are the arguments themselves. *)
Theorem clamp_cases (v lo hi : Q) :
  lo <= hi ->
  (v < lo -> clamp v lo hi = lo) /\
  (hi < v -> clamp v lo hi = hi) /\
  (lo <= v -> v <= hi -> clamp v lo hi = v).
Proof.
  intro Hle. unfold clamp, Qmin, Qmax, GenericMinMax.gmin, GenericMinMax.gmax.
  repeat split.
  - intro Hlt.
    destruct (Qcompare_spec v lo); try lra.
    destruct (Qcompare_spec lo hi); try reflexivity; lra.
  - intro Hgt.
    destruct (Qcompare_spec v lo); try lra;
      destruct (Qcompare_spec v hi); try reflexivity; lra.
  - intros H1 H2.
    destruct (Qcompare_spec v lo); try lra;
      destruct (Qcompare_spec v hi); try reflexivity; lra.
Qed.

Lemma clamp_cases_witness :
  clamp (-3) 0 100 = 0 /\ clamp 250 0 100 = 100 /\ clamp 42 0 100 = 42.
Proof.
  assert (Hle : 0 <= 100) by lra.
  destruct (clamp_cases (-3) 0 100 Hle) as (Hlo & _ & _).
  destruct (clamp_cases 250 0 100 Hle) as (_ & Hhi & _).
  destruct (clamp_cases 42 0 100 Hle) as (_ & _ & Hmid).
  split; [apply Hlo; lra | split; [apply Hhi; lra | apply Hmid; lra]].
Defined.

(** C9 as stated, for all [lo] and [hi], fails when the bounds are crossed:
    [clamp 0 5 3] is [3], not the lower bound [5] (not even up to [==]). *)
Lemma clamp_cases_crossed_bounds :
  ~ (forall v lo hi : Q,
       (v < lo -> clamp v lo hi == lo) /\
       (hi < v -> clamp v lo hi == hi) /\
       (~ v < lo -> ~ hi < v -> clamp v lo hi == v)).
Proof.
  intro H. destruct (H 0 5 3) as (Hlo & _ & _).
  assert (Hlt : 0 < 5) by lra.
  specialize (Hlo Hlt). vm_compute in Hlo. discriminate Hlo.
Qed.

End CropFacts.

(* ================================================================== *)
(** ** Properties of the string operations *)
(* ================================================================== *)

Module JSFacts.

Import JS.
Open Scope string_scope.

Lemma length_app (s1 s2 : string) :
  String.length (s1 ++ s2) = (String.length s1 + String.length s2)%nat.
Proof. induction s1 as [| a s1 IH]; simpl; [reflexivity | now rewrite IH]. Qed.

Lemma substring_0_0 (s : string) : String.substring 0 0 s = "".
Proof. now destruct s. Qed.

Lemma substring_prefix (s1 s2 : string) :
  String.substring 0 (String.length s1) (s1 ++ s2) = s1.
Proof.
  induction s1 as [| a s1 IH]; simpl.
  - apply substring_0_0.
  - now rewrite IH.
Qed.

Lemma substring_whole (s : string) : String.substring 0 (String.length s) s = s.
Proof. induction s as [| a s IH]; simpl; [reflexivity | now rewrite IH]. Qed.

Lemma substring_skip (s1 s2 : string) (m : nat) :
  String.substring (String.length s1) m (s1 ++ s2) = String.substring 0 m s2.
Proof. induction s1 as [| a s1 IH]; simpl; [reflexivity | exact IH]. Qed.

Lemma lastIndexOf_from_absent (c : ascii) (s : string) (i found : Z) :
  occurs c s = false -> lastIndexOf_from s c i found = found.
Proof.
  revert i found. induction s as [| a s IH]; intros i found H; simpl in *.
  - reflexivity.
  - apply orb_false_iff in H. destruct H as [Ha Hs].
    rewrite Ha. now apply IH.
Qed.

Lemma lastIndexOf_from_split (c : ascii) (s1 s2 : string) (i found : Z) :
  occurs c s2 = false ->
  lastIndexOf_from (s1 ++ String c s2) c i found = (i + Z.of_nat (String.length s1))%Z.
Proof.
  revert i found. induction s1 as [| a s1 IH]; intros i found H.
  - simpl. rewrite Ascii.eqb_refl.
    rewrite lastIndexOf_from_absent by exact H. lia.
  - simpl String.append. cbn [lastIndexOf_from]. rewrite IH by exact H.
    cbn [String.length]. lia.
Qed.

(** The last dot of [base.ext] is right after [base]. *)
Lemma lastIndexOf_last (c : ascii) (base ext : string) :
  occurs c ext = false ->
  lastIndexOf (base ++ String c ext) c = Z.of_nat (String.length base).
Proof. intro H. unfold lastIndexOf. now rewrite lastIndexOf_from_split. Qed.

Lemma lastIndexOf_absent (c : ascii) (s : string) :
  occurs c s = false -> lastIndexOf s c = (-1)%Z.
Proof. intro H. unfold lastIndexOf. now apply lastIndexOf_from_absent. Qed.

Lemma substring_base (c : ascii) (base ext : string) :
  substring (base ++ String c ext) 0 (Z.of_nat (String.length base)) = base.
Proof.
  unfold substring. rewrite length_app. cbn [String.length].
  set (n := String.length base). set (k := String.length ext).
  replace (Z.min (Z.max 0 0) (Z.of_nat (n + S k))) with 0%Z by lia.
  replace (Z.min (Z.max (Z.of_nat n) 0) (Z.of_nat (n + S k))) with (Z.of_nat n) by lia.
  replace (Z.min 0 (Z.of_nat n)) with 0%Z by lia.
  replace (Z.max 0 (Z.of_nat n) - 0)%Z with (Z.of_nat n) by lia.
  rewrite Nat2Z.id. change (Z.to_nat 0) with 0%nat.
  apply substring_prefix.
Qed.

Lemma substringFrom_ext (c : ascii) (base ext : string) :
  substringFrom (base ++ String c ext) (Z.of_nat (String.length base) + 1) = ext.
Proof.
  unfold substringFrom, substring. rewrite length_app. cbn [String.length].
  set (n := String.length base). set (k := String.length ext).
  replace (Z.min (Z.max (Z.of_nat n + 1) 0) (Z.of_nat (n + S k)))
    with (Z.of_nat (S n)) by lia.
  replace (Z.min (Z.max (Z.of_nat (n + S k)) 0) (Z.of_nat (n + S k)))
    with (Z.of_nat (n + S k)) by lia.
  replace (Z.min (Z.of_nat (S n)) (Z.of_nat (n + S k))) with (Z.of_nat (S n)) by lia.
  replace (Z.max (Z.of_nat (S n)) (Z.of_nat (n + S k)) - Z.of_nat (S n))%Z
    with (Z.of_nat k) by lia.
  rewrite !Nat2Z.id.
  change (String.substring (S n) k (base ++ String c ext))
    with (String.substring (S (String.length base)) (String.length ext) (base ++ String c ext)).
  replace (S (String.length base)) with (String.length (base ++ String c ""))
    by (rewrite length_app; simpl; lia).
  replace (base ++ String c ext) with ((base ++ String c "") ++ ext).
  - rewrite substring_skip. apply substring_whole.
  - clear. induction base as [| a base IH]; simpl; [reflexivity | now rewrite IH].
Qed.

(** A name in which [c] occurs splits at its last [c]. *)
Lemma occurs_split_last (c : ascii) (s : string) :
  occurs c s = true ->
  exists base ext, s = base ++ String c ext /\ occurs c ext = false.
Proof.
  induction s as [| a s IH]; simpl; [discriminate |].
  intro H. destruct (occurs c s) eqn:Hs.
  - destruct (IH eq_refl) as (base & ext & -> & Hext).
    exists (String a base), ext. now split.
  - rewrite orb_false_r in H. apply Ascii.eqb_eq in H. subst a.
    exists "", s. now split.
Qed.

(** Replacing a class by one character is a character-wise map. *)
Lemma replaceAll_map (class : ascii -> bool) (r : ascii) (s : string) :
  replaceAll class (String r "") s = map_chars (fun c => if class c then r else c) s.
Proof.
  induction s as [| a s IH]; simpl; [reflexivity |].
  rewrite IH. now destruct (class a).
Qed.

End JSFacts.

(* ================================================================== *)
(** ** Properties of the upload pipeline *)
(* ================================================================== *)

Module UploadFacts.

Import Upload.
Open Scope string_scope.
Open Scope Z_scope.

Lemma trace_emit (e : event) (k : io unit) :
  trace (emit e ;;; k) = e :: trace k.
Proof. unfold trace, bind, emit. now destruct k. Qed.

Lemma sizeLimit_value : sizeLimit = 52428800.
Proof. reflexivity. Qed.

(** Case analysis on everything the surroundings answer. *)
Ltac cases_of w :=
  destruct (isMounted_at_check w), (recording w), (user w), (uploadError w),
    (insert_error w), (isMounted_at_end w), (insert_data w).

(** C4: a blob of more than 50 MiB is refused with the size-limit
    notification and no call reaches the backend (no user lookup, no storage
    write, no metadata insert, and no completion callback); a blob of at
    most 50 MiB passes the check and the upload goes on to the user
    lookup. *)
Theorem uploadMedia_size_limit (logId : string) (w : world) (blob : media)
    (type : MediaType) :
  (50 * 1024 * 1024 < size blob ->
     In (Notify "File too large. Maximum size limit is 50MB." error)
        (trace (uploadMedia logId w blob type))
     /\ Forall (fun e => is_network e = false) (trace (uploadMedia logId w blob type))
     /\ count is_onUpload (trace (uploadMedia logId w blob type)) = 0%nat)
  /\ (size blob <= 50 * 1024 * 1024 ->
     exists rest,
       trace (uploadMedia logId w blob type) = SetUploading true :: AuthGetUser :: rest).
Proof.
  split.
  - intro Hbig. unfold uploadMedia.
    assert (E : (size blob >? sizeLimit) = true).
    { apply Z.gtb_lt. unfold sizeLimit. lia. }
    rewrite E.
    destruct (isMounted_at_check w), (recording w); cbn;
      (split; [now left | split; [repeat constructor | reflexivity]]).
  - intro Hsmall. unfold uploadMedia.
    assert (E : (size blob >? sizeLimit) = false).
    { rewrite Z.gtb_ltb. apply Z.ltb_ge. unfold sizeLimit. lia. }
    rewrite E. rewrite !trace_emit. eexists. reflexivity.
Qed.

Lemma uploadMedia_size_limit_witness :
  Forall (fun e => is_network e = false)
    (trace (uploadMedia "log-1"
              (mkWorld true true (Some "u1") "k3j9x0aa" 1700000000000 "1/2/2024"
                       "10:30:00 AM" None (fun p => p) None None true)
              (Blob (50 * 1024 * 1024 + 1)) video)).
Proof.
  apply (proj1 (uploadMedia_size_limit "log-1"
           (mkWorld true true (Some "u1") "k3j9x0aa" 1700000000000 "1/2/2024"
                    "10:30:00 AM" None (fun p => p) None None true)
           (Blob (50 * 1024 * 1024 + 1)) video)).
  simpl. lia.
Defined.

(** C6 (as amended): a failed step aborts the steps after it: without a
    user nothing is written or inserted, after a failed storage write no
    metadata record is inserted, and on any failure the completion callback
    is not invoked; when every step succeeds the callback is invoked exactly
    once provided the component is still mounted and the insert returned a
    row, and not at all otherwise. *)
Theorem uploadMedia_callback (logId : string) (w : world) (blob : media)
    (type : MediaType) :
  let t := trace (uploadMedia logId w blob type) in
  (user w = None -> count is_storage_write t = 0%nat /\ count is_insert t = 0%nat)
  /\ (uploadError w <> None -> count is_insert t = 0%nat)
  /\ (succeeded w blob = false -> count is_onUpload t = 0%nat)
  /\ (succeeded w blob = true ->
      count is_onUpload t =
      match isMounted_at_end w, insert_data w with
      | true, Some _ => 1%nat
      | _, _ => 0%nat
      end).
Proof.
  unfold succeeded, uploadMedia.
  rewrite Z.gtb_ltb.
  destruct (Z.leb_spec (size blob) sizeLimit), (Z.ltb_spec sizeLimit (size blob));
    try lia; cbn [andb];
    cases_of w; cbn; repeat split; intros; congruence.
Qed.

Lemma uploadMedia_callback_witness :
  count is_onUpload (trace (uploadMedia "log-1" (world_ok true) (Blob 1000) image)) = 1%nat.
Proof.
  exact (proj2 (proj2 (proj2
           (uploadMedia_callback "log-1" (world_ok true) (Blob 1000) image))) eq_refl).
Defined.

(** C6 as stated fails: an upload whose every step succeeds while the
    component is unmounted in the meantime does not invoke the callback. *)
Lemma uploadMedia_unmounted_no_callback :
  ~ (forall (logId : string) (w : world) (blob : media) (type : MediaType),
       succeeded w blob = true ->
       count is_onUpload (trace (uploadMedia logId w blob type)) = 1%nat).
Proof.
  intro H.
  specialize (H "log-1" (world_ok false) (Blob 1000) image eq_refl).
  vm_compute in H. discriminate H.
Qed.

(** The names of a picked file [base.ext] whose extension has no dot. *)
Lemma fileNames_picked (w : world) (n : Z) (base ext : string) (type : MediaType) :
  JS.occurs "." ext = false ->
  fileNames w (File n (base ++ "." ++ ext)) type =
  (random_id w ++ "_" ++ sanitize base ++ "." ++ ext, base ++ "." ++ ext).
Proof.
  intro Hext. unfold fileNames.
  change (base ++ "." ++ ext) with (base ++ String "." ext).
  rewrite (JSFacts.lastIndexOf_last "." base ext Hext).
  destruct (Z.eqb_spec (Z.of_nat (String.length base)) (-1)) as [E | _]; [lia |].
  cbn [negb].
  now rewrite JSFacts.substring_base, JSFacts.substringFrom_ext.
Qed.

Lemma fileNames_no_dot (w : world) (n : Z) (name : string) (type : MediaType) :
  JS.occurs "." name = false ->
  fileNames w (File n name) type = (random_id w ++ "_" ++ sanitize name ++ ".", name).
Proof.
  intro Hname. unfold fileNames.
  rewrite (JSFacts.lastIndexOf_absent "." name Hname). reflexivity.
Qed.

(** C5 (as amended): a picked file [base.ext] is stored as
    [{random_id}_{sanitized base}.{ext}], where sanitising replaces by an
    underscore every character other than a letter, a digit, a hyphen or an
    underscore, and the extension is kept; the display name of a picked
    file is its original name.  ["My Notes.pdf"] is stored as [{id}_My_Notes.pdf] and displayed
    as ["My Notes.pdf"].  A captured blob is stored as
    [{random_id}_{type}_{timestamp}.{ext}] with [jpg] for images and [webm]
    otherwise. *)
Theorem fileNames_spec (w : world) (n : Z) (type : MediaType) :
  (forall base ext : string,
      JS.occurs "." ext = false ->
      storageFileName w (File n (base ++ "." ++ ext)) type
        = random_id w ++ "_" ++ sanitize base ++ "." ++ ext
      /\ dbFileName w (File n (base ++ "." ++ ext)) type = base ++ "." ++ ext)
  /\ (forall name : string, dbFileName w (File n name) type = name)
  /\ (forall base : string,
      sanitize base =
      JS.map_chars
        (fun c => if alphanumeric c || Ascii.eqb c "-" || Ascii.eqb c "_" then c else "_"%char)
        base)
  /\ storageFileName w (File n "My Notes.pdf") type = random_id w ++ "_My_Notes.pdf"
  /\ dbFileName w (File n "My Notes.pdf") type = "My Notes.pdf"
  /\ storageFileName w (Blob n) type
     = random_id w ++ "_" ++ type_string type ++ "_" ++ JS.decimal (now w) ++ "."
       ++ match type with image => "jpg" | _ => "webm" end.
Proof.
  split; [| split; [| split; [| split; [| split]]]].
  - intros base ext Hext. unfold storageFileName, dbFileName.
    rewrite (fileNames_picked w n base ext type Hext). now split.
  - intro name. unfold dbFileName, fileNames.
    now destruct (negb (JS.lastIndexOf name "." =? -1)).
  - intro base. unfold sanitize. rewrite JSFacts.replaceAll_map.
    induction base as [| a base IH]; simpl; [reflexivity |].
    rewrite IH. f_equal.
    unfold kept, alphanumeric.
    now destruct (JS.in_range "a" "z" a || JS.in_range "A" "Z" a || JS.in_range "0" "9" a
                  || Ascii.eqb a "-" || Ascii.eqb a "_").
  - reflexivity.
  - reflexivity.
  - unfold storageFileName, fileNames. now destruct type.
Qed.

Lemma fileNames_spec_witness :
  storageFileName (world_ok true) (File 2048 "lecture-notes (v2).final.pdf") document
  = "k3j9x0aa_lecture-notes__v2__final.pdf".
Proof.
  destruct (proj1 (fileNames_spec (world_ok true) 2048 document)
              "lecture-notes (v2).final" "pdf" eq_refl) as [Hs _].
  exact Hs.
Defined.

(** C5 as stated, with every non-alphanumeric character of the base name
    replaced, fails: the hyphen of ["lecture-notes.pdf"] is kept. *)
Lemma fileNames_keeps_hyphen :
  ~ (forall (w : world) (n : Z) (type : MediaType) (base ext : string),
       JS.occurs "." ext = false ->
       storageFileName w (File n (base ++ "." ++ ext)) type
       = random_id w ++ "_" ++ spec_sanitize base ++ "." ++ ext).
Proof.
  intro H.
  specialize (H (world_ok true) 2048 document "lecture-notes" "pdf" eq_refl).
  vm_compute in H. discriminate H.
Qed.

(** C10: a picked file whose name has no dot is stored under
    [{random_id}_{sanitized name}.], with a trailing dot and an empty
    extension, and displayed under its original name. *)
Theorem fileNames_without_extension (w : world) (n : Z) (name : string)
    (type : MediaType) :
  JS.occurs "." name = false ->
  storageFileName w (File n name) type = random_id w ++ "_" ++ sanitize name ++ "."
  /\ dbFileName w (File n name) type = name.
Proof.
  intro Hname. unfold storageFileName, dbFileName.
  rewrite (fileNames_no_dot w n name type Hname). now split.
Qed.

Lemma fileNames_without_extension_witness :
  storageFileName (world_ok true) (File 2048 "README") document = "k3j9x0aa_README."
  /\ dbFileName (world_ok true) (File 2048 "README") document = "README".
Proof.
  exact (fileNames_without_extension (world_ok true) 2048 "README" document eq_refl).
Defined.

(** The names computed by [fileNames] are the ones [uploadMedia] writes
    under and inserts. *)
Lemma uploadMedia_uses_fileNames (logId uid : string) (w : world) (blob : media)
    (type : MediaType) :
  size blob <= sizeLimit -> user w = Some uid -> uploadError w = None ->
  In (StorageUpload (uid ++ "/" ++ storageFileName w blob type) blob)
     (trace (uploadMedia logId w blob type))
  /\ In (InsertAttachment
          (mkRow logId type (publicUrl w (uid ++ "/" ++ storageFileName w blob type))
                 (dbFileName w blob type)))
       (trace (uploadMedia logId w blob type)).
Proof.
  intros Hsize Hu He. unfold uploadMedia.
  assert (E : (size blob >? sizeLimit) = false).
  { rewrite Z.gtb_ltb. apply Z.ltb_ge. exact Hsize. }
  rewrite E, Hu, He.
  destruct (insert_error w), (isMounted_at_end w), (insert_data w); cbn;
    split; tauto.
Qed.

End UploadFacts.

(* ================================================================== *)
(** ** Properties of the controller and the recorder adapter *)
(* ================================================================== *)

Module ControllerFacts.

Import Controller.
Open Scope string_scope.
Open Scope nat_scope.

Section Selection.

Variable isTypeSupported : string -> bool.

(** [find] stops at the first element that passes the test. *)
Lemma find_first (l before after : list string) (t : string) :
  l = (before ++ t :: after)%list ->
  isTypeSupported t = true ->
  Forall (fun u => isTypeSupported u = false) before ->
  List.find isTypeSupported l = Some t.
Proof.
  intros -> Ht Hbefore.
  induction Hbefore as [| u before Hu _ IH]; simpl.
  - now rewrite Ht.
  - now rewrite Hu.
Qed.

Lemma find_none (l : list string) :
  Forall (fun u => isTypeSupported u = false) l -> List.find isTypeSupported l = None.
Proof.
  induction 1 as [| u l Hu _ IH]; simpl; [reflexivity | now rewrite Hu].
Qed.

Lemma audioTypes_nonempty (t : string) : In t audioTypes -> String.eqb t "" = false.
Proof.
  unfold audioTypes. simpl.
  intros [<- | [<- | [<- | [<- | []]]]]; reflexivity.
Qed.

(** C7: for audio the adapter takes the first supported encoding of the
    list webm, mp4, ogg, aac, and the recorder is created with it; when none
    of them is supported it reports an error and creates no recorder. *)
Theorem audio_encoding_selection :
  audioTypes = ["audio/webm"; "audio/mp4"; "audio/ogg"; "audio/aac"]
  /\ (forall (before after : list string) (t : string),
        audioTypes = (before ++ t :: after)%list ->
        isTypeSupported t = true ->
        Forall (fun u => isTypeSupported u = false) before ->
        getSupportedMimeType isTypeSupported audio = t
        /\ forall (st : state) (s : stream),
             setupRecorder isTypeSupported st s audio =
             set_mediaRecorderRef st (Some (mkRecorder s t audio)))
  /\ (Forall (fun u => isTypeSupported u = false) audioTypes ->
        getSupportedMimeType isTypeSupported audio = ""
        /\ forall (st : state) (s : stream),
             setupRecorder isTypeSupported st s audio =
             notify st "Your browser does not support recording media."
             /\ mediaRecorderRef (setupRecorder isTypeSupported st s audio) =
                mediaRecorderRef st).
Proof.
  split; [reflexivity | split].
  - intros before after t Hsplit Ht Hbefore.
    assert (Hin : In t audioTypes).
    { rewrite Hsplit. apply in_or_app. right. now left. }
    assert (Hsel : getSupportedMimeType isTypeSupported audio = t).
    { unfold getSupportedMimeType. cbn [captureType_eqb].
      rewrite (find_first _ _ _ _ Hsplit Ht Hbefore).
      now rewrite (audioTypes_nonempty t Hin). }
    split; [exact Hsel |].
    intros st s. unfold setupRecorder. rewrite Hsel.
    now rewrite (audioTypes_nonempty t Hin).
  - intro Hnone.
    assert (Hsel : getSupportedMimeType isTypeSupported audio = "").
    { unfold getSupportedMimeType. cbn [captureType_eqb].
      now rewrite (find_none _ Hnone). }
    split; [exact Hsel |].
    intros st s. unfold setupRecorder. rewrite Hsel. now split.
Qed.

(** The held stream is released before anything else. *)
Lemma startStream_release_releases (st : state) :
  coherent st -> live (startStream_release st) = [] /\ streamRef (startStream_release st) = None.
Proof.
  unfold coherent, held, startStream_release, stopStream, stopTracks.
  destruct st as [sr mr mounted cap rcd aud lv notes]; cbn.
  destruct sr as [s0 |]; intros ->; cbn.
  - destruct (Nat.eq_dec s0 s0) as [_ | Hne]; [| contradiction].
    now destruct mounted.
  - now split.
Qed.

Lemma startStream_release_isMounted (st : state) :
  isMounted (startStream_release st) = isMounted st.
Proof.
  unfold startStream_release, stopStream, stopTracks.
  destruct st as [sr mr mounted cap rcd aud lv notes]; cbn.
  destruct sr; cbn; now destruct mounted.
Qed.

Lemma setupRecorder_keeps_streams (st : state) (s : stream) (type : captureType) :
  live (setupRecorder isTypeSupported st s type) = live st
  /\ streamRef (setupRecorder isTypeSupported st s type) = streamRef st.
Proof.
  unfold setupRecorder.
  now destruct (String.eqb (getSupportedMimeType isTypeSupported type) "").
Qed.

(** C8 (as amended): from a state in which the held stream is the only
    live one, a start operation that runs with no other start in between
    first stops the tracks of the held stream; when it completes, the held
    stream is again the only live one, at most one stream is live, and
    exactly one (the new stream) is live when the acquisition is granted
    while the component is mounted; none is live when the acquisition is
    rejected or the component was unmounted. *)
Theorem startStream_single_stream (st : state) (type : captureType) (r : response) :
  coherent st ->
  live (startStream_release st) = []
  /\ coherent (startStream isTypeSupported st type r)
  /\ List.length (live (startStream isTypeSupported st type r)) <= 1
  /\ live (startStream isTypeSupported st type r) =
     match r with
     | Granted s => if isMounted st then [s] else []
     | Rejected => []
     end.
Proof.
  intro Hco.
  destruct (startStream_release_releases st Hco) as [Hlive Href].
  pose proof (startStream_release_isMounted st) as Hm.
  assert (Hres : live (startStream isTypeSupported st type r) =
                 match r with
                 | Granted s => if isMounted st then [s] else []
                 | Rejected => []
                 end
                 /\ streamRef (startStream isTypeSupported st type r) =
                    match r with
                    | Granted s => if isMounted st then Some s else None
                    | Rejected => None
                    end).
  { unfold startStream. rewrite <- Hm.
    destruct (startStream_release st) as [sr mr mounted cap rcd aud lv notes].
    cbn in Hlive, Href |- *. subst sr lv.
    destruct r as [s |]; cbn; [| now split].
    destruct mounted; cbn.
    - destruct (captureType_eqb type audio || captureType_eqb type video).
      + match goal with
        | |- context [setupRecorder _ ?st0 _ _] =>
            destruct (setupRecorder_keeps_streams st0 s type) as [-> ->]
        end.
        now split.
      + now split.
    - unfold stopTracks. cbn.
      destruct (Nat.eq_dec s s) as [_ | Hne]; [now split | contradiction]. }
  destruct Hres as [Hl Hs].
  split; [exact Hlive | split; [| split; [| exact Hl]]].
  - unfold coherent, held. rewrite Hl, Hs.
    destruct r; [destruct (isMounted st) |]; reflexivity.
  - rewrite Hl. destruct r; [destruct (isMounted st) |]; simpl; lia.
Qed.

End Selection.

Lemma audio_encoding_selection_witness :
  getSupportedMimeType ogg_or_aac audio = "audio/ogg"
  /\ mediaRecorderRef (setupRecorder nothing_supported (holding 1) 1 audio) = None.
Proof.
  split.
  - apply (proj1 (proj2 (audio_encoding_selection ogg_or_aac))
             ["audio/webm"; "audio/mp4"] ["audio/aac"] "audio/ogg");
      [reflexivity | reflexivity | repeat constructor].
  - apply (proj2 (proj2 (audio_encoding_selection nothing_supported))).
    repeat constructor.
Defined.

Lemma startStream_single_stream_witness :
  live (startStream ogg_or_aac (holding 1) audio (Granted 2)) = [2].
Proof.
  apply (startStream_single_stream ogg_or_aac (holding 1) audio (Granted 2)).
  reflexivity.
Defined.

(** C8 as stated fails: when the acquisition is rejected the start
    operation completes with the previous stream released and no stream
    live, not exactly one. *)
Lemma startStream_rejected_no_stream :
  ~ (forall (isTypeSupported : string -> bool) (st : state) (type : captureType)
            (r : response),
       coherent st ->
       List.length (live (startStream isTypeSupported st type r)) = 1).
Proof.
  intro H.
  specialize (H ogg_or_aac (holding 1) photo Rejected eq_refl).
  vm_compute in H. discriminate H.
Qed.

(** Two start operations whose awaits overlap: both find no held stream,
    both are granted, and the stream of the first stays live although the
    controller holds only the second. *)
Remark overlapping_starts (isTypeSupported : string -> bool) :
  let st1 := startStream_release idle in
  let st2 := startStream_release st1 in
  let st3 := startStream_resume isTypeSupported st2 photo (Granted 1) in
  let st4 := startStream_resume isTypeSupported st3 photo (Granted 2) in
  live st4 = [2; 1] /\ streamRef st4 = Some 2.
Proof. split; reflexivity. Qed.

End ControllerFacts.

(* ================================================================== *)
(** ** Properties of the pointer gestures *)
(* ================================================================== *)

Module GestureFacts.

Import CropEditor Gesture.
Open Scope Q_scope.

(** Case analysis on every comparison [Qmin] and [Qmax] make. *)
Ltac compare_cases :=
  unfold clamp, Qmin, Qmax, GenericMinMax.gmin, GenericMinMax.gmax;
  repeat match goal with
         | |- context [Qcompare ?a ?b] =>
             lazymatch a with
             | context [Qcompare _ _] => fail
             | _ => destruct (Qcompare_spec a b)
             end
         end.

Lemma after_app (ps qs : list pointer) (ed : editor) :
  after ed (ps ++ qs) = after (after ed ps) qs.
Proof. unfold after. apply fold_left_app. Qed.

Lemma moves_keep_snapshot (moves : list pointer) (ed : editor) :
  Forall (fun p => is_move p = true) moves ->
  interactionRef (after ed moves) = interactionRef ed.
Proof.
  intro Hm. unfold after.
  revert ed. induction Hm as [| p moves Hp _ IH]; intro ed; cbn [fold_left].
  - reflexivity.
  - rewrite IH. destruct p as [m e | imgRef e |]; try discriminate Hp.
    cbn [handle].
    now destruct (handlePointerMove (interactionRef ed) imgRef e).
Qed.

(** X2: during a gesture only the pointer's latest position counts: after
    a press on a handle and any number of moves, a move to [e] over a
    rendered image shows the rectangle computed from the snapshot taken at
    the press and the displacement from the press to [e]. *)
Theorem gesture_depends_on_last_move (ed : editor) (m : mode) (e0 e : PointerEvent)
    (moves : list pointer) (rect : DOMRect) :
  Forall (fun p => is_move p = true) moves ->
  ~ rect_width rect == 0 -> ~ rect_height rect == 0 ->
  let i := mkInteraction (clientX e0) (clientY e0) (current ed) m in
  current (after ed (onPointerDown m e0 :: moves ++ [onPointerMove (Some rect) e]))
  = computeCrop (current ed) m (deltaX i rect e) (deltaY i rect e).
Proof.
  intros Hm Hw Hh i.
  change (onPointerDown m e0 :: moves ++ [onPointerMove (Some rect) e])
    with ([onPointerDown m e0] ++ moves ++ [onPointerMove (Some rect) e])%list.
  rewrite !after_app.
  set (ed1 := after ed [onPointerDown m e0]).
  assert (Hsnap : interactionRef (after ed1 moves) = Some i).
  { rewrite (moves_keep_snapshot moves ed1 Hm). reflexivity. }
  cbn [after fold_left handle]. rewrite Hsnap.
  rewrite (CropFacts.handlePointerMove_updates i rect e Hw Hh).
  reflexivity.
Qed.

Lemma gesture_depends_on_last_move_witness :
  current (after initialEditor
             [onPointerDown se (mkEvent 300 200);
              onPointerMove (Some (mkRect 400 200)) (mkEvent 10 10);
              onPointerMove None (mkEvent 0 0);
              onPointerMove (Some (mkRect 400 200)) (mkEvent 200 100)])
  = computeCrop initialCrop se
      (deltaX (mkInteraction 300 200 initialCrop se) (mkRect 400 200) (mkEvent 200 100))
      (deltaY (mkInteraction 300 200 initialCrop se) (mkRect 400 200) (mkEvent 200 100)).
Proof.
  apply (gesture_depends_on_last_move initialEditor se (mkEvent 300 200) (mkEvent 200 100)
           [onPointerMove (Some (mkRect 400 200)) (mkEvent 10 10);
            onPointerMove None (mkEvent 0 0)] (mkRect 400 200)).
  - repeat constructor.
  - simpl. intro H. vm_compute in H. discriminate H.
  - simpl. intro H. vm_compute in H. discriminate H.
Defined.

Lemma moves_without_gesture (moves : list pointer) (ed : editor) :
  Forall (fun p => is_move p = true) moves ->
  interactionRef ed = None -> after ed moves = ed.
Proof.
  intro Hm. unfold after.
  revert ed. induction Hm as [| p moves Hp _ IH]; intros ed Hnone; cbn [fold_left].
  - reflexivity.
  - destruct p as [m e | imgRef e |]; try discriminate Hp.
    cbn [handle]. rewrite Hnone. cbn [handlePointerMove]. now apply IH.
Qed.

(** X3: once the pointer is released, moves do nothing until the next
    press: after any events ending in a release, any number of move events
    leaves the editor as the release left it. *)
Theorem moves_after_release_ignored (ed : editor) (ps moves : list pointer) :
  Forall (fun p => is_move p = true) moves ->
  after ed (ps ++ onPointerUp :: moves) = after ed (ps ++ [onPointerUp]).
Proof.
  intro Hm.
  change (onPointerUp :: moves) with ([onPointerUp] ++ moves)%list.
  rewrite app_assoc, (after_app (ps ++ [onPointerUp]) moves).
  apply moves_without_gesture; [exact Hm |].
  rewrite after_app. reflexivity.
Qed.

Lemma moves_after_release_ignored_witness :
  after initialEditor
    ([onPointerDown move (mkEvent 5 5)] ++ onPointerUp ::
     [onPointerMove (Some (mkRect 400 200)) (mkEvent 50 50)])
  = after initialEditor ([onPointerDown move (mkEvent 5 5)] ++ [onPointerUp]).
Proof.
  apply (moves_after_release_ignored initialEditor [onPointerDown move (mkEvent 5 5)]
           [onPointerMove (Some (mkRect 400 200)) (mkEvent 50 50)]).
  repeat constructor.
Defined.

(** X6: [clamp] is monotone in its value, and clamping twice is clamping
    once, for all bounds (crossed ones included). *)
Theorem clamp_monotone_idempotent (v v' lo hi : Q) :
  (v <= v' -> clamp v lo hi <= clamp v' lo hi)
  /\ clamp (clamp v lo hi) lo hi = clamp v lo hi.
Proof.
  split.
  - intro Hle. compare_cases; lra.
  - compare_cases; try reflexivity; lra.
Qed.

Lemma clamp_monotone_idempotent_witness :
  clamp 30 0 100 <= clamp 130 0 100.
Proof. apply (proj1 (clamp_monotone_idempotent 30 130 0 100)). lra. Defined.

End GestureFacts.

(* ================================================================== *)
(** ** More properties of the controller *)
(* ================================================================== *)

Module ControllerMore.

Import Controller.
Open Scope string_scope.
Open Scope nat_scope.

Lemma remove_self (s : stream) : List.remove Nat.eq_dec s [s] = [].
Proof. cbn. now destruct (Nat.eq_dec s s). Qed.

Lemma stopStream_streams (st : state) :
  streamRef (stopStream st) = None
  /\ live (stopStream st)
     = match streamRef st with
       | Some s => List.remove Nat.eq_dec s (live st)
       | None => live st
       end
  /\ mediaRecorderRef (stopStream st) = mediaRecorderRef st
  /\ isMounted (stopStream st) = isMounted st.
Proof.
  unfold stopStream, stopTracks.
  destruct st as [sr mr mounted cap rcd aud lv notes]; cbn.
  destruct sr; cbn; destruct mounted; cbn; repeat split.
Qed.

(** X9: [stopStream] releases what is held and can be repeated: after it
    no stream is held, from a state whose held stream is the only live one
    no stream is live, a second [stopStream] changes nothing, and the
    recorder reference is left as it was. *)
Theorem stopStream_releases (st : state) :
  streamRef (stopStream st) = None
  /\ (coherent st -> live (stopStream st) = [] /\ coherent (stopStream st))
  /\ stopStream (stopStream st) = stopStream st
  /\ mediaRecorderRef (stopStream st) = mediaRecorderRef st.
Proof.
  destruct (stopStream_streams st) as (Hs & Hl & Hr & _).
  split; [exact Hs | split; [| split; [| exact Hr]]].
  - unfold coherent, held. intro Hco. rewrite Hs, Hl.
    destruct (streamRef st) as [s |]; rewrite Hco; [rewrite remove_self |]; now split.
  - unfold stopStream, stopTracks.
    destruct st as [sr mr mounted cap rcd aud lv notes]; cbn.
    destruct sr; cbn; destruct mounted; reflexivity.
Qed.

Lemma stopStream_releases_witness :
  live (stopStream (holding 7)) = [] /\ coherent (stopStream (holding 7)).
Proof.
  apply (proj1 (proj2 (stopStream_releases (holding 7)))). reflexivity.
Defined.

Section Selection.

Variable isTypeSupported : string -> bool.

Lemma videoTypes_nonempty (t : string) : In t videoTypes -> String.eqb t "" = false.
Proof.
  unfold videoTypes. simpl.
  intros [<- | [<- | [<- | [<- | []]]]]; reflexivity.
Qed.

(** X10: for video the adapter takes the first supported encoding of the
    list webm with vp8, webm, mp4, quicktime, and the recorder is created
    with it on the given stream; when none is supported it answers the
    empty string and [setupRecorder] only raises the notification. *)
Theorem video_encoding_selection :
  videoTypes = ["video/webm;codecs=vp8"; "video/webm"; "video/mp4"; "video/quicktime"]
  /\ (forall (before after : list string) (t : string),
        videoTypes = (before ++ t :: after)%list ->
        isTypeSupported t = true ->
        Forall (fun u => isTypeSupported u = false) before ->
        getSupportedMimeType isTypeSupported video = t
        /\ forall (st : state) (s : stream),
             setupRecorder isTypeSupported st s video =
             set_mediaRecorderRef st (Some (mkRecorder s t video)))
  /\ (Forall (fun u => isTypeSupported u = false) videoTypes ->
        getSupportedMimeType isTypeSupported video = ""
        /\ forall (st : state) (s : stream),
             setupRecorder isTypeSupported st s video =
             notify st "Your browser does not support recording media.").
Proof.
  split; [reflexivity | split].
  - intros before after t Hsplit Ht Hbefore.
    assert (Hin : In t videoTypes).
    { rewrite Hsplit. apply in_or_app. right. now left. }
    assert (Hsel : getSupportedMimeType isTypeSupported video = t).
    { unfold getSupportedMimeType. cbn [captureType_eqb].
      rewrite (ControllerFacts.find_first isTypeSupported _ _ _ _ Hsplit Ht Hbefore).
      now rewrite (videoTypes_nonempty t Hin). }
    split; [exact Hsel |].
    intros st s. unfold setupRecorder. rewrite Hsel.
    now rewrite (videoTypes_nonempty t Hin).
  - intro Hnone.
    assert (Hsel : getSupportedMimeType isTypeSupported video = "").
    { unfold getSupportedMimeType. cbn [captureType_eqb].
      now rewrite (ControllerFacts.find_none isTypeSupported _ Hnone). }
    split; [exact Hsel |].
    intros st s. unfold setupRecorder. now rewrite Hsel.
Qed.

Lemma startStream_release_idle (st : state) :
  streamRef st = None -> startStream_release st = st.
Proof. intro H. unfold startStream_release. now rewrite H. Qed.

Lemma startStream_resume_granted (st : state) (type : captureType) (s : stream) :
  isMounted st = true ->
  live (startStream_resume isTypeSupported st type (Granted s)) = s :: live st
  /\ streamRef (startStream_resume isTypeSupported st type (Granted s)) = Some s
  /\ isMounted (startStream_resume isTypeSupported st type (Granted s)) = true.
Proof.
  intro Hm. unfold startStream_resume.
  destruct st as [sr mr mounted cap rcd aud lv notes]; cbn in Hm |- *. subst mounted.
  cbn. destruct (captureType_eqb type audio || captureType_eqb type video); cbn.
  - unfold setupRecorder.
    now destruct (String.eqb (getSupportedMimeType isTypeSupported type) "").
  - repeat split.
Qed.

(** X11: two start operations whose awaits overlap leak a stream: from a
    mounted state whose held stream is the only live one, when the second
    start begins before the first is answered and both are granted, the
    stream granted first stays live while the controller holds only the
    second, so more than one stream is live. *)
Theorem overlapping_starts_leak (st : state) (t1 t2 : captureType) (s1 s2 : stream) :
  coherent st -> isMounted st = true ->
  let first_begun := startStream_release st in
  let second_begun := startStream_release first_begun in
  let first_done := startStream_resume isTypeSupported second_begun t1 (Granted s1) in
  let second_done := startStream_resume isTypeSupported first_done t2 (Granted s2) in
  live second_done = [s2; s1]
  /\ streamRef second_done = Some s2
  /\ ~ coherent second_done.
Proof.
  intros Hco Hm first_begun second_begun first_done second_done.
  destruct (ControllerFacts.startStream_release_releases st Hco) as [Hl1 Hr1].
  assert (Hsame : second_begun = first_begun).
  { unfold second_begun. apply startStream_release_idle. exact Hr1. }
  assert (Hm1 : isMounted first_begun = true).
  { unfold first_begun. now rewrite ControllerFacts.startStream_release_isMounted. }
  destruct (startStream_resume_granted first_begun t1 s1 Hm1) as (La & Ra & Ma).
  fold first_begun in Hl1.
  assert (Hfd : first_done = startStream_resume isTypeSupported first_begun t1 (Granted s1)).
  { unfold first_done. now rewrite Hsame. }
  rewrite <- Hfd in La, Ra, Ma.
  destruct (startStream_resume_granted first_done t2 s2 Ma) as (Lb & Rb & _).
  fold second_done in Lb, Rb.
  rewrite La, Hl1 in Lb.
  split; [exact Lb | split; [exact Rb |]].
  unfold coherent, held. rewrite Lb, Rb. discriminate.
Qed.

(** X12: what a start operation leaves behind.  Granted while mounted, it
    holds the new stream and shows the requested mode with no recording
    under review; for photo the recorder reference is untouched, and for
    audio with a supported encoding [t] it is a recorder on the new stream
    with [t].  Rejected, it closes the popup and raises the access
    notification, and the recorder reference is untouched. *)
Theorem startStream_outcomes (st : state) (s : stream) :
  isMounted st = true ->
  (let st' := startStream isTypeSupported st photo (Granted s) in
   streamRef st' = Some s /\ isCapturing st' = Some photo
   /\ recordedAudio st' = None /\ mediaRecorderRef st' = mediaRecorderRef st)
  /\ (forall t : string,
        getSupportedMimeType isTypeSupported audio = t -> t <> "" ->
        let st' := startStream isTypeSupported st audio (Granted s) in
        streamRef st' = Some s /\ isCapturing st' = Some audio
        /\ recordedAudio st' = None
        /\ mediaRecorderRef st' = Some (mkRecorder s t audio))
  /\ (forall type : captureType,
        let st' := startStream isTypeSupported st type Rejected in
        streamRef st' = None /\ isCapturing st' = None
        /\ mediaRecorderRef st' = mediaRecorderRef st
        /\ notifications st'
           = (notifications st
              ++ ["Media access denied. Please check your browser permissions."])%list).
Proof.
  intro Hm. unfold startStream, startStream_release, stopStream, stopTracks.
  destruct st as [sr mr mounted cap rcd aud lv notes]; cbn in Hm |- *. subst mounted.
  split; [| split].
  - destruct sr; cbn; repeat split.
  - intros t Ht Hne. unfold setupRecorder.
    assert (E : String.eqb t "" = false) by now apply String.eqb_neq.
    destruct sr; cbn; unfold setupRecorder; rewrite Ht, E; cbn; repeat split.
  - intro type. destruct sr; cbn; repeat split.
Qed.

End Selection.

Lemma video_encoding_selection_witness :
  getSupportedMimeType (fun t => String.eqb t "video/mp4") video = "video/mp4".
Proof.
  apply (proj1 (proj2 (video_encoding_selection (fun t => String.eqb t "video/mp4")))
           ["video/webm;codecs=vp8"; "video/webm"] ["video/quicktime"] "video/mp4");
    [reflexivity | reflexivity | repeat constructor].
Defined.

Lemma overlapping_starts_leak_witness :
  live (startStream_resume ogg_or_aac
          (startStream_resume ogg_or_aac
             (startStream_release (startStream_release (holding 1))) photo (Granted 2))
          audio (Granted 3)) = [3; 2].
Proof.
  apply (overlapping_starts_leak ogg_or_aac (holding 1) photo audio 2 3); reflexivity.
Defined.

Lemma startStream_outcomes_witness :
  mediaRecorderRef (startStream ogg_or_aac (holding 1) audio (Granted 2))
  = Some (mkRecorder 2 "audio/ogg" audio).
Proof.
  apply (proj1 (proj2 (startStream_outcomes ogg_or_aac (holding 1) 2 eq_refl))
           "audio/ogg" eq_refl).
  discriminate.
Defined.

End ControllerMore.

(* ================================================================== *)
(** ** More properties of the upload pipeline *)
(* ================================================================== *)

Module UploadMore.

Import Upload.
Open Scope string_scope.
Open Scope Z_scope.

(** Case analysis on the size check and on everything the surroundings
    answer. *)
Ltac all_cases w blob :=
  unfold uploadMedia;
  destruct (size blob >? sizeLimit);
  destruct (isMounted_at_check w), (recording w), (user w), (uploadError w),
    (insert_error w), (isMounted_at_end w), (insert_data w).

(** Go through a trace that is known to split around an event, until the
    event is found or the trace ends. *)
Ltac walk_trace E :=
  lazymatch type of E with
  | _ = (?b ++ _ :: _)%list => symmetry in E; walk_trace E
  | (?b ++ _ :: _)%list = nil => destruct b; discriminate E
  | (?b ++ _ :: _)%list = _ :: _ =>
      let e := fresh "e" in
      let b' := fresh "b" in
      let H := fresh "H" in
      destruct b as [| e b']; cbn [app] in E;
      [ try discriminate E; clear E; cbn; repeat split
      | injection E as H E; subst e; walk_trace E ]
  end.

(** X13: every failure is told once and success is silent: an invocation
    in which a step fails raises exactly one notification, of the error
    kind, and one in which every step succeeds raises none. *)
Theorem uploadMedia_notifies_failure_once (logId : string) (w : world) (blob : media)
    (type : MediaType) :
  count Session.is_notify (trace (uploadMedia logId w blob type))
  = (if succeeded w blob then 0 else 1)%nat
  /\ forallb Session.is_error_or_silent (trace (uploadMedia logId w blob type)) = true.
Proof.
  unfold succeeded, uploadMedia. rewrite Z.gtb_ltb.
  destruct (Z.leb_spec (size blob) sizeLimit), (Z.ltb_spec sizeLimit (size blob));
    try lia; cbn [andb];
    destruct (isMounted_at_check w), (recording w), (user w), (uploadError w),
      (insert_error w), (isMounted_at_end w), (insert_data w); cbn; split; reflexivity.
Qed.

(** X14: nothing is retried and nothing is done out of order: one
    invocation looks the user up at most once, writes to storage at most
    once, inserts at most one record and calls back at most once; the
    storage write comes after the user lookup and before any insert or
    callback, the insert comes after the storage write, and the callback
    comes after the insert. *)
Theorem uploadMedia_steps_once_in_order (logId : string) (w : world) (blob : media)
    (type : MediaType) :
  let t := trace (uploadMedia logId w blob type) in
  (count is_onUpload t <= count is_insert t)%nat
  /\ (count is_insert t <= count is_storage_write t)%nat
  /\ (count is_storage_write t <= count is_getUser t)%nat
  /\ (count is_getUser t <= 1)%nat
  /\ (forall before after data,
        t = (before ++ OnUpload data :: after)%list ->
        count is_insert before = 1%nat /\ count is_storage_write before = 1%nat
        /\ count is_getUser before = 1%nat)
  /\ (forall before after r,
        t = (before ++ InsertAttachment r :: after)%list ->
        count is_storage_write before = 1%nat /\ count is_getUser before = 1%nat
        /\ count is_onUpload before = 0%nat)
  /\ (forall before after filePath b,
        t = (before ++ StorageUpload filePath b :: after)%list ->
        count is_getUser before = 1%nat /\ count is_insert before = 0%nat
        /\ count is_onUpload before = 0%nat).
Proof.
  all_cases w blob; cbn;
    (split; [lia | split; [lia | split; [lia | split; [lia |]]]]);
    (split; [intros before after data E; walk_trace E |]);
    (split; [intros before after r E; walk_trace E |]);
    intros before after filePath b E; walk_trace E.
Qed.

Lemma uploadMedia_steps_once_in_order_witness :
  count is_insert
    [SetUploading true; AuthGetUser;
     StorageUpload "u1/k3j9x0aa_image_1700000000000.jpg" (Blob 1000);
     GetPublicUrl "u1/k3j9x0aa_image_1700000000000.jpg";
     InsertAttachment
       (mkRow "log-1" image "https://cdn/u1/k3j9x0aa_image_1700000000000.jpg"
              "Image Capture 1-2-2024 10-30-00 AM.jpg")] = 1%nat.
Proof.
  apply (proj1 (proj2 (proj2 (proj2 (proj2
           (uploadMedia_steps_once_in_order "log-1" (world_ok true) (Blob 1000) image)))))
           _ [SetUploading false; SetIsCapturingNull; SetRecordedAudioNull]
           (mkAttachment "a1" "2024-01-02"
              (mkRow "log-1" image "https://cdn/u1/k3j9x0aa_image_1700000000000.jpg"
                     "Image Capture 1-2-2024 10-30-00 AM.jpg"))).
  reflexivity.
Defined.

(** X15: where the bytes and the record go: when the size check passes,
    there is a user and the storage write succeeds, the blob is written
    under [{user id}/{stored name}], and the record inserted carries the
    log id, the type, the public URL of that path and the display name. *)
Theorem uploadMedia_path_and_record (logId uid : string) (w : world) (blob : media)
    (type : MediaType) :
  size blob <= sizeLimit -> user w = Some uid -> uploadError w = None ->
  let filePath := uid ++ "/" ++ storageFileName w blob type in
  In (StorageUpload filePath blob) (trace (uploadMedia logId w blob type))
  /\ In (InsertAttachment (mkRow logId type (publicUrl w filePath) (dbFileName w blob type)))
        (trace (uploadMedia logId w blob type))
  /\ forall r, In (InsertAttachment r) (trace (uploadMedia logId w blob type)) ->
               r = mkRow logId type (publicUrl w filePath) (dbFileName w blob type).
Proof.
  intros Hsize Hu He filePath.
  destruct (UploadFacts.uploadMedia_uses_fileNames logId uid w blob type Hsize Hu He)
    as [H1 H2].
  split; [exact H1 | split; [exact H2 |]].
  intro r. unfold uploadMedia.
  assert (E : (size blob >? sizeLimit) = false).
  { rewrite Z.gtb_ltb. apply Z.ltb_ge. exact Hsize. }
  rewrite E, Hu, He.
  destruct (insert_error w), (isMounted_at_end w), (insert_data w); cbn;
    intros H; repeat (destruct H as [H | H]; try discriminate H);
    try contradiction; now injection H as <-.
Qed.

Lemma uploadMedia_path_and_record_witness :
  In (StorageUpload "u1/k3j9x0aa_My_Notes.pdf" (File 2048 "My Notes.pdf"))
     (trace (uploadMedia "log-1" (world_ok true) (File 2048 "My Notes.pdf") document)).
Proof.
  apply (uploadMedia_path_and_record "log-1" "u1" (world_ok true)
           (File 2048 "My Notes.pdf") document); [unfold sizeLimit; simpl; lia | reflexivity ..].
Defined.

Lemma sanitize_chars (s : string) :
  sanitize s = JS.map_chars (fun c => if negb (kept c) then "_"%char else c) s.
Proof. unfold sanitize. apply JSFacts.replaceAll_map. Qed.

Lemma kept_underscore : kept "_" = true.
Proof. reflexivity. Qed.

(** X16: the sanitised base name is safe and as long as the original:
    every character of it is a letter, a digit, a hyphen or an underscore
    (so it holds no dot, slash or space), its length is that of the base
    name, and sanitising it again changes nothing. *)
Theorem sanitize_safe (s : string) :
  (forall (i : nat) (c : ascii), String.get i (sanitize s) = Some c -> kept c = true)
  /\ String.length (sanitize s) = String.length s
  /\ sanitize (sanitize s) = sanitize s
  /\ JS.occurs "." (sanitize s) = false
  /\ JS.occurs "/" (sanitize s) = false.
Proof.
  rewrite !sanitize_chars.
  set (f := fun c : ascii => if negb (kept c) then "_"%char else c).
  assert (Hf : forall c, kept (f c) = true).
  { intro c. unfold f. destruct (kept c) eqn:E; cbn; [exact E | reflexivity]. }
  assert (Hocc : forall d, kept d = false -> JS.occurs d (JS.map_chars f s) = false).
  { intros d Hd. induction s as [| a s IH]; cbn; [reflexivity |].
    rewrite IH, orb_false_r. apply Ascii.eqb_neq. intros E.
    rewrite <- E, Hf in Hd. discriminate Hd. }
  split; [| split; [| split; [| split]]].
  - clear Hocc. induction s as [| a s IH]; intros i c.
    + destruct i; discriminate.
    + destruct i as [| i]; cbn [JS.map_chars String.get].
      * intros [= <-]. apply Hf.
      * apply IH.
  - clear Hocc. induction s as [| a s IH]; cbn; [reflexivity | now rewrite IH].
  - clear Hocc.
    induction s as [| a s IH]; cbn; [reflexivity |].
    rewrite IH. f_equal. unfold f at 1. now rewrite Hf.
  - now apply Hocc.
  - now apply Hocc.
Qed.

Lemma sanitize_safe_witness : kept "_" = true.
Proof. exact (proj1 (sanitize_safe "My Notes") 2%nat "_"%char eq_refl). Defined.

Lemma extension_of_split (base ext : string) :
  JS.occurs "." ext = false -> Session.extension (base ++ String "." ext) = ext.
Proof.
  intro Hext. unfold Session.extension.
  rewrite (JSFacts.lastIndexOf_last "." base ext Hext).
  destruct (Z.eqb_spec (Z.of_nat (String.length base)) (-1)) as [E | _]; [lia |].
  cbn [negb]. apply JSFacts.substringFrom_ext.
Qed.

Lemma extension_without_dot (name : string) :
  JS.occurs "." name = false -> Session.extension name = "".
Proof.
  intro H. unfold Session.extension.
  now rewrite (JSFacts.lastIndexOf_absent "." name H).
Qed.

Lemma append_assoc (a b c : string) : (a ++ b) ++ c = a ++ (b ++ c).
Proof. induction a as [| x a IH]; cbn; [reflexivity | now rewrite IH]. Qed.

(** X17: the stored name of a picked file keeps the file's extension: for
    every file name, with or without a dot, taking the extension of the
    stored name the way [uploadMedia] takes it from a name gives the
    extension of the original name. *)
Theorem stored_name_keeps_extension (w : world) (n : Z) (name : string)
    (type : MediaType) :
  Session.extension (storageFileName w (File n name) type) = Session.extension name.
Proof.
  destruct (JS.occurs "." name) eqn:Hdot.
  - destruct (JSFacts.occurs_split_last "." name Hdot) as (base & ext & -> & Hext).
    unfold storageFileName.
    change (base ++ String "." ext) with (base ++ "." ++ ext).
    rewrite (UploadFacts.fileNames_picked w n base ext type Hext). cbn [fst].
    change (base ++ "." ++ ext) with (base ++ String "." ext).
    rewrite (extension_of_split base ext Hext).
    replace (random_id w ++ "_" ++ sanitize base ++ "." ++ ext)
      with ((random_id w ++ "_" ++ sanitize base) ++ String "." ext)
      by (now rewrite !append_assoc).
    now apply extension_of_split.
  - unfold storageFileName.
    rewrite (UploadFacts.fileNames_no_dot w n name type Hdot). cbn [fst].
    rewrite (extension_without_dot name Hdot).
    replace (random_id w ++ "_" ++ sanitize name ++ ".")
      with ((random_id w ++ "_" ++ sanitize name) ++ String "." "")
      by (now rewrite !append_assoc).
    now apply extension_of_split.
Qed.

Lemma replace_one_char (bad good : ascii) (s : string) :
  bad <> good ->
  JS.occurs bad (JS.replaceAll (Ascii.eqb bad) (String good "") s) = false
  /\ String.length (JS.replaceAll (Ascii.eqb bad) (String good "") s) = String.length s.
Proof.
  intro Hne. rewrite JSFacts.replaceAll_map.
  induction s as [| a s [IH1 IH2]]; cbn; [now split |].
  rewrite IH1, IH2, orb_false_r. split; [| reflexivity].
  destruct (Ascii.eqb_spec bad a) as [-> | Hba].
  - apply Ascii.eqb_neq. congruence.
  - apply Ascii.eqb_neq. congruence.
Qed.

(** X18: the display name of a captured blob is
    ["{Type} Capture {date} {time}.{ext}"] with the type capitalised, [jpg]
    for images and [webm] otherwise, where the date is the locale date with
    every slash turned into a hyphen and the time the locale time with
    every colon turned into a hyphen: neither holds a slash or a colon of
    its own, and both keep their length. *)
Theorem captured_display_name (w : world) (n : Z) (type : MediaType) :
  let dateStr := JS.replaceAll (Ascii.eqb "/") "-" (localeDate w) in
  let timeStr := JS.replaceAll (Ascii.eqb ":") "-" (localeTime w) in
  dbFileName w (Blob n) type
  = Session.capitalized type ++ " Capture " ++ dateStr ++ " " ++ timeStr ++ "."
    ++ match type with image => "jpg" | _ => "webm" end
  /\ JS.occurs "/" dateStr = false /\ JS.occurs ":" timeStr = false
  /\ String.length dateStr = String.length (localeDate w)
  /\ String.length timeStr = String.length (localeTime w).
Proof.
  intros dateStr timeStr.
  destruct (replace_one_char "/" "-" (localeDate w)) as [D1 D2]; [discriminate |].
  destruct (replace_one_char ":" "-" (localeTime w)) as [T1 T2]; [discriminate |].
  split; [| now repeat split].
  unfold dbFileName, fileNames. cbn [snd]. now destruct type.
Qed.

End UploadMore.

(* ================================================================== *)
(** ** Properties of the handlers of the capture component *)
(* ================================================================== *)

Module SessionFacts.

Import Controller Session.
Open Scope string_scope.
Open Scope nat_scope.

(** An upload event leaves the streams, the recorder, the captured image,
    the chunk buffer and the revoked URLs alone, never opens the popup, and
    adds itself to the calls when it is one. *)
Lemma apply_event_frame (c : component) (e : Upload.event) :
  streamRef (ctl (apply_event c e)) = streamRef (ctl c)
  /\ live (ctl (apply_event c e)) = live (ctl c)
  /\ mediaRecorderRef (ctl (apply_event c e)) = mediaRecorderRef (ctl c)
  /\ isMounted (ctl (apply_event c e)) = isMounted (ctl c)
  /\ capturedImage (apply_event c e) = capturedImage c
  /\ chunksRef (apply_event c e) = chunksRef c
  /\ revoked (apply_event c e) = revoked c
  /\ (isCapturing (ctl c) = None -> isCapturing (ctl (apply_event c e)) = None)
  /\ calls (apply_event c e) = (calls c ++ List.filter is_call [e])%list.
Proof.
  destruct e; cbn; rewrite ?app_nil_r; repeat split; auto.
Qed.

Lemma events_frame (t : list Upload.event) (c : component) :
  let c' := List.fold_left apply_event t c in
  streamRef (ctl c') = streamRef (ctl c)
  /\ live (ctl c') = live (ctl c)
  /\ mediaRecorderRef (ctl c') = mediaRecorderRef (ctl c)
  /\ isMounted (ctl c') = isMounted (ctl c)
  /\ capturedImage c' = capturedImage c
  /\ chunksRef c' = chunksRef c
  /\ revoked c' = revoked c
  /\ (isCapturing (ctl c) = None -> isCapturing (ctl c') = None)
  /\ calls c' = (calls c ++ List.filter is_call t)%list.
Proof.
  revert c. induction t as [| e t IH]; intro c; cbn [fold_left].
  - cbn. rewrite app_nil_r. repeat split; auto.
  - destruct (apply_event_frame c e) as (A1 & A2 & A3 & A4 & A5 & A6 & A7 & A8 & A9).
    destruct (IH (apply_event c e)) as (B1 & B2 & B3 & B4 & B5 & B6 & B7 & B8 & B9).
    cbn zeta in *.
    rewrite B1, B2, B3, B4, B5, B6, B7, B9, A1, A2, A3, A4, A5, A6, A7, A9.
    repeat split; auto.
    rewrite <- app_assoc. f_equal.
    change (e :: t) with ([e] ++ t)%list. now rewrite filter_app.
Qed.

(** X19: Discard releases the microphone and uploads nothing: from a state
    whose held stream is the only live one, [handleDiscardAudio] leaves no
    stream held or live and makes no call to the backend or to [onUpload];
    while mounted it also drops the recording and closes the popup. *)
Theorem discard_releases_without_upload (c : component) :
  coherent (ctl c) ->
  let c' := handleDiscardAudio c in
  live (ctl c') = [] /\ streamRef (ctl c') = None /\ calls c' = calls c
  /\ (isMounted (ctl c) = true ->
      recordedAudio (ctl c') = None /\ recording (ctl c') = false
      /\ isCapturing (ctl c') = None).
Proof.
  intros Hco c'. unfold c', handleDiscardAudio. cbn [ctl calls with_ctl].
  destruct (ControllerMore.stopStream_streams (ctl c)) as (Hs & Hl & _).
  assert (Hlive : live (stopStream (ctl c)) = []).
  { rewrite Hl. unfold coherent, held in Hco.
    destruct (streamRef (ctl c)); rewrite Hco;
      [apply ControllerMore.remove_self | reflexivity]. }
  split; [exact Hlive | split; [exact Hs | split; [reflexivity |]]].
  intro Hm. unfold stopStream, stopTracks.
  destruct (ctl c) as [sr mr mounted cap rcd aud lv notes]; cbn in Hm |- *. subst mounted.
  destruct sr; cbn; repeat split.
Qed.

Lemma discard_releases_without_upload_witness :
  live (ctl (handleDiscardAudio reviewing_audio)) = []
  /\ streamRef (ctl (handleDiscardAudio reviewing_audio)) = None
  /\ calls (handleDiscardAudio reviewing_audio) = calls reviewing_audio
  /\ (isMounted (ctl reviewing_audio) = true ->
      recordedAudio (ctl (handleDiscardAudio reviewing_audio)) = None
      /\ recording (ctl (handleDiscardAudio reviewing_audio)) = false
      /\ isCapturing (ctl (handleDiscardAudio reviewing_audio)) = None).
Proof. apply (discard_releases_without_upload reviewing_audio). reflexivity. Defined.

(** X20: Save hands the recording to the pipeline and keeps the
    microphone: with a recording under review, [handleSaveAudio] runs
    [uploadMedia] on an audio blob of the recording's size, its calls being
    the only ones added, and closes the popup; the stream the controller
    holds is neither stopped nor let go. *)
Theorem save_audio_keeps_stream (logId : string) (w : Upload.world) (c : component)
    (blob : string) :
  recordedAudio (ctl c) = Some blob ->
  let c' := handleSaveAudio logId w c in
  calls c'
  = (calls c
     ++ List.filter is_call
          (Upload.trace
             (Upload.uploadMedia logId w
                (Upload.Blob (Z.of_nat (String.length blob))) Upload.audio)))%list
  /\ isCapturing (ctl c') = None
  /\ streamRef (ctl c') = streamRef (ctl c)
  /\ live (ctl c') = live (ctl c).
Proof.
  intros Hrec c'. unfold c', handleSaveAudio. rewrite Hrec. unfold upload, blobOf.
  match goal with
  | |- context [List.fold_left apply_event ?t ?c0] =>
      destruct (events_frame t c0) as (B1 & B2 & _ & _ & _ & _ & _ & B8 & B9)
  end.
  cbn zeta in *. rewrite B1, B2, B9. cbn [ctl calls with_ctl setUploading].
  split; [reflexivity | split; [| split]].
  - apply B8. now destruct (ctl c).
  - now destruct (ctl c).
  - now destruct (ctl c).
Qed.

Lemma save_audio_keeps_stream_witness :
  live (ctl (handleSaveAudio "log-1" (Upload.world_ok true) reviewing_audio)) = [4].
Proof.
  apply (save_audio_keeps_stream "log-1" (Upload.world_ok true) reviewing_audio "RIFFdata").
  reflexivity.
Defined.

Lemma chunks_buffered (chunks : list string) (c : component) :
  chunksRef (List.fold_left ondataavailable chunks c)
  = (chunksRef c ++ List.filter (fun d => 0 <? String.length d) chunks)%list
  /\ ctl (List.fold_left ondataavailable chunks c) = ctl c.
Proof.
  revert c. induction chunks as [| d chunks IH]; intro c; cbn [fold_left filter].
  - now rewrite app_nil_r.
  - destruct (IH (ondataavailable c d)) as [E1 E2]. rewrite E1, E2.
    unfold ondataavailable. destruct (0 <? String.length d); cbn.
    + now rewrite <- app_assoc.
    + now split.
Qed.

Lemma append_empty (s : string) : s ++ "" = s.
Proof. induction s as [| a s IH]; cbn; [reflexivity | now rewrite IH]. Qed.

Lemma concat_cons (d : string) (l : list string) :
  String.concat "" (d :: l) = d ++ String.concat "" l.
Proof. destruct l; cbn; [now rewrite append_empty | reflexivity]. Qed.

(** Empty chunks add nothing to the blob. *)
Lemma concat_nonempty (l : list string) :
  String.concat "" (List.filter (fun d => 0 <? String.length d) l) = String.concat "" l.
Proof.
  induction l as [| d l IH]; [reflexivity |].
  cbn [filter]. destruct d as [| a d].
  - change (0 <? String.length "") with false. cbv iota.
    rewrite concat_cons. exact IH.
  - change (0 <? String.length (String a d)) with true. cbv iota.
    now rewrite !concat_cons, IH.
Qed.

(** X21: a recording is exactly what arrived between record and stop: in
    a mounted component that is not recording, pressing record, receiving
    any chunks and stopping an audio recorder puts under review the
    concatenation of those chunks, whatever the buffer held before; only
    the non-empty chunks were buffered, and afterwards the buffer is empty
    and the recording flag off. *)
Theorem recording_round_trip (logId : string) (w : Upload.world) (c : component)
    (r : recorder) (chunks : list string) :
  isMounted (ctl c) = true -> recording (ctl c) = false -> rec_type r = audio ->
  let started := toggleRecording c in
  let filled := List.fold_left ondataavailable chunks started in
  let stopped := onstop logId w (toggleRecording filled) r in
  recording (ctl started) = true
  /\ chunksRef filled = List.filter (fun d => 0 <? String.length d) chunks
  /\ recordedAudio (ctl stopped) = Some (String.concat "" chunks)
  /\ recording (ctl stopped) = false
  /\ chunksRef stopped = [].
Proof.
  intros Hm Hrec Htype started filled stopped.
  assert (Hs : recording (ctl started) = true /\ isMounted (ctl started) = true
               /\ chunksRef started = []).
  { unfold started, toggleRecording. rewrite Hrec. cbn.
    destruct (ctl c); cbn in *. now subst. }
  destruct Hs as (Hs1 & Hs2 & Hs3).
  destruct (chunks_buffered chunks started) as [Hbuf Hctl]. fold filled in Hbuf, Hctl.
  rewrite Hs3 in Hbuf. cbn [app] in Hbuf.
  assert (Hclick : toggleRecording filled = filled).
  { unfold toggleRecording. now rewrite Hctl, Hs1. }
  split; [exact Hs1 | split; [exact Hbuf |]].
  unfold stopped, onstop. rewrite Hclick, Hctl, Hs2, Htype. cbn.
  rewrite Hbuf, concat_nonempty. now repeat split.
Qed.

Lemma recording_round_trip_witness :
  recordedAudio
    (ctl (onstop "log-1" (Upload.world_ok true)
            (toggleRecording
               (List.fold_left ondataavailable ["ab"; ""; "cd"]
                  (toggleRecording (set_chunksRef (setRecordedAudioOf reviewing_audio) ["old"]))))
            (mkRecorder 4 "audio/webm" audio)))
  = Some "abcd".
Proof.
  apply (recording_round_trip "log-1" (Upload.world_ok true)
           (set_chunksRef (setRecordedAudioOf reviewing_audio) ["old"])
           (mkRecorder 4 "audio/webm" audio) ["ab"; ""; "cd"]); reflexivity.
Defined.

Section Popup.

Variable isTypeSupported : string -> bool.
Variable logId : string.

(** In audio mode, recording and with nothing under review, no button of
    the popup does anything. *)
Lemma press_while_recording (c : component) (b : click) :
  capturedImage c = None -> isCapturing (ctl c) = Some audio ->
  recording (ctl c) = true -> recordedAudio (ctl c) = None ->
  press logId c b = c.
Proof.
  intros Hi Hc Hr Ha.
  unfold press, canDismiss, isAudioMode, reviewing, toggleRecording.
  rewrite Hi, Hc, Hr, Ha. now destruct b.
Qed.

(** X22: without a supported audio encoding the recorder popup cannot be
    left once record is pressed: the popup opens without a recorder, record
    turns the recording flag on, and from then on the flag stays on,
    dismissal stays disabled and every button of the popup, pressed in any
    order, leaves the component as it is. *)
Theorem no_encoding_traps_recording (s : stream) (bs : list click) :
  Forall (fun u => isTypeSupported u = false) audioTypes ->
  let opened := with_ctl initial (startStream isTypeSupported (ctl initial) audio (Granted s)) in
  let pressed := press logId opened ClickRecord in
  isCapturing (ctl opened) = Some audio
  /\ mediaRecorderRef (ctl pressed) = None
  /\ recording (ctl pressed) = true
  /\ canDismiss pressed = false
  /\ presses logId pressed bs = pressed.
Proof.
  intros Hnone opened pressed.
  assert (Hsel : getSupportedMimeType isTypeSupported audio = "").
  { unfold getSupportedMimeType. cbn [captureType_eqb].
    now rewrite (ControllerFacts.find_none isTypeSupported _ Hnone). }
  assert (Hopened : opened =
            with_ctl initial
              (notify (mkState (Some s) None true (Some audio) false None [s] [])
                      "Your browser does not support recording media.")).
  { unfold opened, startStream, startStream_release, startStream_resume. cbn.
    unfold setupRecorder. now rewrite Hsel. }
  assert (Hpressed : capturedImage pressed = None /\ isCapturing (ctl pressed) = Some audio
                     /\ recording (ctl pressed) = true /\ recordedAudio (ctl pressed) = None
                     /\ mediaRecorderRef (ctl pressed) = None).
  { unfold pressed. rewrite Hopened. cbn. repeat split. }
  destruct Hpressed as (P1 & P2 & P3 & P4 & P5).
  split; [now rewrite Hopened | split; [exact P5 | split; [exact P3 | split]]].
  - unfold canDismiss. now rewrite P2, P3.
  - unfold presses. induction bs as [| b bs IH]; cbn [fold_left]; [reflexivity |].
    now rewrite (press_while_recording pressed b P1 P2 P3 P4).
Qed.

(** X24: Retake closes the editor and opens the camera again: from the crop
    editor of a mounted component whose held stream is the only live one,
    [handleCropCancel] revokes the URL of the captured image, uploads
    nothing, and, when the camera is granted, shows the photo view on the
    new stream, the only live one; when it is rejected, no stream is live
    and the popup stays closed. *)
Theorem crop_cancel_reopens_camera (c : component) (u : string) :
  capturedImage c = Some u -> coherent (ctl c) -> isMounted (ctl c) = true ->
  (forall s : stream,
      let c' := handleCropCancel isTypeSupported c (Granted s) in
      capturedImage c' = None /\ revoked c' = (revoked c ++ [u])%list
      /\ calls c' = calls c
      /\ live (ctl c') = [s] /\ streamRef (ctl c') = Some s
      /\ isCapturing (ctl c') = Some photo)
  /\ (let c' := handleCropCancel isTypeSupported c Rejected in
      capturedImage c' = None /\ revoked c' = (revoked c ++ [u])%list
      /\ calls c' = calls c
      /\ live (ctl c') = [] /\ streamRef (ctl c') = None
      /\ isCapturing (ctl c') = None).
Proof.
  intros Hu Hco Hm.
  unfold handleCropCancel, revokeCaptured. rewrite Hu.
  unfold startStream, startStream_release, stopStream, stopTracks.
  destruct c as [st up img fl ch rv cl]. cbn in Hu, Hco, Hm |- *.
  destruct st as [sr mr mounted cap rcd aud lv notes].
  unfold coherent, held in Hco. cbn in Hco, Hm |- *. subst mounted lv.
  destruct sr as [s0 |]; cbn;
    (split; [intro s |]); cbn; repeat split;
    now destruct (Nat.eq_dec s0 s0).
Qed.

End Popup.

Lemma no_encoding_traps_recording_witness :
  presses "log-1"
    (press "log-1"
       (with_ctl initial (startStream nothing_supported (ctl initial) audio (Granted 1)))
       ClickRecord)
    [ClickRecord; ClickBackdrop; ClickClose; ClickDiscard; ClickRecord]
  = press "log-1"
      (with_ctl initial (startStream nothing_supported (ctl initial) audio (Granted 1)))
      ClickRecord.
Proof.
  apply (no_encoding_traps_recording nothing_supported "log-1" 1
           [ClickRecord; ClickBackdrop; ClickClose; ClickDiscard; ClickRecord]).
  repeat constructor.
Defined.

Lemma crop_cancel_reopens_camera_witness :
  live (ctl (handleCropCancel ogg_or_aac cropping (Granted 6))) = [6].
Proof.
  apply (proj1 (crop_cancel_reopens_camera ogg_or_aac cropping "blob:frame-1"
                  eq_refl eq_refl eq_refl) 6).
Defined.

(** X23: capturing a frame hands the camera back: in a mounted component
    whose held stream is the only live one, a capture that yields a blob
    shows it in the crop editor and leaves no stream held or live; a
    capture without a video element, without a context or without a blob
    leaves the controller and the captured image as they were. *)
Theorem capture_releases_camera (c : component) :
  coherent (ctl c) -> isMounted (ctl c) = true ->
  (forall u : string,
      let c' := capturePhoto c true true (Some u) in
      capturedImage c' = Some u /\ live (ctl c') = [] /\ streamRef (ctl c') = None
      /\ isCapturing (ctl c') = None)
  /\ (forall (hasVideo hasContext : bool) (url : option string),
        hasVideo && hasContext = false \/ url = None ->
        ctl (capturePhoto c hasVideo hasContext url) = ctl c
        /\ capturedImage (capturePhoto c hasVideo hasContext url) = capturedImage c).
Proof.
  intros Hco Hm. split.
  - intros u c'. unfold c', capturePhoto. cbn. rewrite Hm. cbn.
    destruct (ControllerMore.stopStream_streams (ctl c)) as (Hs & Hl & _).
    split; [reflexivity | split; [| split; [exact Hs |]]].
    + rewrite Hl. unfold coherent, held in Hco.
      destruct (streamRef (ctl c)); rewrite Hco;
        [apply ControllerMore.remove_self | reflexivity].
    + unfold stopStream, stopTracks.
      destruct (ctl c) as [sr mr mounted cap rcd aud lv notes]; cbn in Hm |- *.
      subst mounted. now destruct sr.
  - intros hasVideo hasContext url H. unfold capturePhoto.
    destruct hasVideo, hasContext, url; cbn; try (now split);
      destruct H as [H | H]; discriminate H.
Qed.

Lemma capture_releases_camera_witness :
  live (ctl (capturePhoto photo_view true true (Some "blob:frame-1"))) = [].
Proof.
  apply (proj1 (capture_releases_camera photo_view eq_refl eq_refl) "blob:frame-1").
Defined.

(** X25: while the component is mounted an upload never leaves the spinner
    on: whatever the blob and whatever fails, when [uploadMedia] has run the
    [uploading] flag is off; the popup is closed as well, except when the
    size check passed and no user is signed in, where [isCapturing] is left
    as it was. *)
Theorem upload_clears_spinner (logId : string) (w : Upload.world) (c : component)
    (blob : Upload.media) (type : Upload.MediaType) :
  Upload.isMounted_at_check w = true -> Upload.isMounted_at_end w = true ->
  let c' := upload logId w c blob type in
  uploading c' = false
  /\ ((Upload.sizeLimit < Upload.size blob)%Z \/ Upload.user w <> None ->
      isCapturing (ctl c') = None)
  /\ ((Upload.size blob <= Upload.sizeLimit)%Z -> Upload.user w = None ->
      isCapturing (ctl c') = isCapturing (ctl c)).
Proof.
  intros H1 H2 c'. unfold c', upload, Upload.uploadMedia.
  rewrite H1, H2, Z.gtb_ltb.
  destruct (Z.ltb_spec Upload.sizeLimit (Upload.size blob)) as [Hbig | Hsmall].
  - destruct (Upload.recording w); cbn; repeat split; intros; try reflexivity;
      unfold Upload.sizeLimit in *; lia.
  - destruct (Upload.user w) as [uid |], (Upload.uploadError w), (Upload.insert_error w),
      (Upload.insert_data w); cbn; repeat split; intros;
      try discriminate;
      try (match goal with
           | H : _ \/ _ |- _ =>
               destruct H; [unfold Upload.sizeLimit in *; lia | congruence]
           end);
      now destruct (ctl c).
Qed.

Lemma upload_clears_spinner_witness :
  uploading (upload "log-1" (Upload.world_ok true) (setUploading reviewing_audio true)
               (Upload.Blob 1000) Upload.audio) = false.
Proof.
  apply (upload_clears_spinner "log-1" (Upload.world_ok true)
           (setUploading reviewing_audio true) (Upload.Blob 1000) Upload.audio);
    reflexivity.
Defined.

Lemma prefix_first_char (a b : ascii) (p q m : string) :
  a <> b -> String.prefix (String a p) m = true -> String.prefix (String b q) m = false.
Proof.
  intros Hab. destruct m as [| c m]; cbn; [discriminate |].
  destruct (ascii_dec a c) as [<- | _]; [| discriminate].
  intros _. destruct (ascii_dec b a) as [E | _]; [congruence | reflexivity].
Qed.

(** X26: a picked file is classified by its declared type alone and the
    three tests cannot overlap: it is an image, a video or an audio exactly
    when the declared type starts with [image/], [video/] or [audio/], and
    a document exactly when it starts with none of them. *)
Theorem inferType_exact (mime : string) :
  (inferType mime = Upload.image <-> String.prefix "image/" mime = true)
  /\ (inferType mime = Upload.video <-> String.prefix "video/" mime = true)
  /\ (inferType mime = Upload.audio <-> String.prefix "audio/" mime = true)
  /\ (inferType mime = Upload.document <->
      String.prefix "image/" mime = false /\ String.prefix "video/" mime = false
      /\ String.prefix "audio/" mime = false).
Proof.
  unfold inferType.
  destruct (String.prefix "image/" mime) eqn:Ei.
  - rewrite (prefix_first_char "i" "v" _ "ideo/" mime ltac:(discriminate) Ei).
    rewrite (prefix_first_char "i" "a" _ "udio/" mime ltac:(discriminate) Ei).
    intuition congruence.
  - destruct (String.prefix "video/" mime) eqn:Ev.
    + rewrite (prefix_first_char "v" "a" _ "udio/" mime ltac:(discriminate) Ev).
      intuition congruence.
    + destruct (String.prefix "audio/" mime) eqn:Ea;
        intuition congruence.
Qed.

Lemma inferType_exact_witness : inferType "image/png" = Upload.image.
Proof. apply (proj1 (inferType_exact "image/png")). reflexivity. Defined.

(** X27: after the component is torn down nothing is held and nothing is
    shown anew: from a state whose held stream is the only live one, the
    cleanup leaves no stream held or live and sets no state variable; a
    camera or microphone granted afterwards is stopped at once, and a
    recorder that stops afterwards changes nothing. *)
Theorem unmount_releases (isTypeSupported : string -> bool) (logId : string)
    (w : Upload.world) (c : component) :
  coherent (ctl c) ->
  let c' := unmount c in
  isMounted (ctl c') = false
  /\ live (ctl c') = [] /\ streamRef (ctl c') = None
  /\ isCapturing (ctl c') = isCapturing (ctl c)
  /\ recording (ctl c') = recording (ctl c)
  /\ recordedAudio (ctl c') = recordedAudio (ctl c)
  /\ (forall (type : captureType) (s : stream),
        live (startStream_resume isTypeSupported (ctl c') type (Granted s)) = []
        /\ streamRef (startStream_resume isTypeSupported (ctl c') type (Granted s)) = None)
  /\ (forall r : recorder, onstop logId w c' r = c').
Proof.
  intros Hco c'. unfold c', unmount, onstop, stopStream, stopTracks, startStream_resume.
  destruct c as [st up img fl ch rv cl]. cbn in Hco |- *.
  destruct st as [sr mr mounted cap rcd aud lv notes].
  unfold coherent, held in Hco. cbn in Hco |- *. subst lv.
  destruct sr as [s0 |]; cbn; repeat split;
    unfold stopTracks; cbn;
    try (destruct (Nat.eq_dec s0 s0); [reflexivity | contradiction]);
    try match goal with
        | |- context [Nat.eq_dec ?a ?a] => destruct (Nat.eq_dec a a); [| contradiction]
        end; try reflexivity;
    try (destruct (Nat.eq_dec s0 s0); [reflexivity | contradiction]).
Qed.

Lemma unmount_releases_witness :
  live (ctl (unmount reviewing_audio)) = []
  /\ recordedAudio (ctl (unmount reviewing_audio)) = Some "RIFFdata".
Proof.
  destruct (unmount_releases nothing_supported "log-1" (Upload.world_ok true)
              reviewing_audio eq_refl) as (_ & H1 & _ & _ & _ & H2 & _).
  split; [exact H1 | exact H2].
Defined.

End SessionFacts.

(* ================================================================== *)
(** ** Properties of the attachment list *)
(* ================================================================== *)

Module StudyDayFacts.

Import StudyDay.
Open Scope string_scope.
Open Scope nat_scope.

Lemma filter_fresh (target : string) (l : list Upload.MediaAttachment) :
  Forall (fun a => Upload.id a <> target) l ->
  List.filter (fun a => negb (String.eqb (Upload.id a) target)) l = l.
Proof.
  induction 1 as [| a l Ha _ IH]; cbn; [reflexivity |].
  apply String.eqb_neq in Ha. now rewrite Ha, IH.
Qed.

(** X28: deleting an attachment undoes its upload in the list: the
    completion callback puts the new attachment at the head of the list,
    and when its id is new and nothing throws, deleting it afterwards gives
    back the list as it was before the upload, in the same order. *)
Theorem delete_undoes_upload (be : backend) (v : view) (att : Upload.MediaAttachment)
    (logId : string) :
  log v = Some logId ->
  Forall (fun a => Upload.id a <> Upload.id att) (attachments v) ->
  quiet be (Upload.file_url (Upload.fields att)) ->
  let uploaded := fst (onUpload v att) in
  let chosen :=
    initiateDelete uploaded (Upload.id att) (Upload.file_url (Upload.fields att)) in
  let deleted := fst (executeDelete be chosen) in
  attachments uploaded = att :: attachments v
  /\ attachments deleted = attachments v.
Proof.
  intros Hlog Hfresh [Hstore [err Hdel]] uploaded chosen deleted.
  split; [reflexivity |].
  unfold deleted, executeDelete, chosen, initiateDelete, uploaded, onUpload.
  cbn [fst log mediaToDelete attachments selectedMedia]. rewrite Hlog.
  destruct (removeFromStorage be (Upload.file_url (Upload.fields att))) as [es thrown].
  cbn in Hstore. subst thrown. rewrite Hdel. cbn [fst attachments filter].
  rewrite String.eqb_refl. cbn [negb].
  now apply filter_fresh.
Qed.

Lemma delete_undoes_upload_witness :
  attachments
    (fst (executeDelete (plain_backend (Resolved (Some "object not found")))
            (initiateDelete
               (fst (onUpload (mkView (Some "log-1") [] None None false) sample_attachment))
               "a1" "https://cdn/student-assets/u1/k3j9x0aa_notes.pdf")))
  = [].
Proof.
  apply (delete_undoes_upload (plain_backend (Resolved (Some "object not found")))
           (mkView (Some "log-1") [] None None false) sample_attachment "log-1").
  - reflexivity.
  - constructor.
  - split; [reflexivity | now exists None].
Defined.

(** X29: what a deletion does.  With nothing chosen or no log it does
    nothing.  Otherwise it always ends with no deletion pending.  When
    nothing throws, the record is deleted once and every attachment with
    the chosen id leaves the list, the others keeping their order; this is
    so also when the storage removal came back with an error, when the
    record deletion came back with an error, and when the URL does not hold
    the storage marker, in which case no storage removal is asked for.
    When the record deletion rejects, the list is left as it was and the
    failure is notified. *)
Theorem executeDelete_outcomes (be : backend) (v : view) :
  (mediaToDelete v = None \/ log v = None -> executeDelete be v = (v, []))
  /\ (forall id fileUrl logId,
        mediaToDelete v = Some (id, fileUrl) -> log v = Some logId ->
        let v' := fst (executeDelete be v) in
        let effects := snd (executeDelete be v) in
        mediaToDelete v' = None /\ isDeleting v' = false
        /\ (quiet be fileUrl ->
            attachments v'
            = List.filter (fun a => negb (String.eqb (Upload.id a) id)) (attachments v)
            /\ List.filter is_deleteRow effects = [DeleteRow id]
            /\ In (Notify "Media asset deleted." Upload.info) effects)
        /\ (String.index 0 marker fileUrl = None ->
            List.filter is_storageRemove effects = [])
        /\ (forall thrown,
              snd (removeFromStorage be fileUrl) = None ->
              deleteAnswer be = Rejected thrown ->
              attachments v' = attachments v
              /\ In (Notify ("Deletion failed: " ++ thrown) Upload.error) effects)).
Proof.
  split.
  - unfold executeDelete. intros [H | H]; rewrite H; [reflexivity |].
    now destruct (mediaToDelete v) as [[? ?] |].
  - intros id fileUrl logId Hm Hl v' effects.
    unfold v', effects, executeDelete. rewrite Hm, Hl.
    assert (Hnd : List.filter is_deleteRow (fst (removeFromStorage be fileUrl)) = []).
    { unfold removeFromStorage.
      destruct (String.index 0 marker fileUrl); [| reflexivity].
      destruct (decodeURIComponent be _); [reflexivity |].
      now destruct (removeAnswer be) as [[e |] | m]. }
    assert (Hns : String.index 0 marker fileUrl = None ->
                  List.filter is_storageRemove (fst (removeFromStorage be fileUrl)) = []).
    { intro Hidx. unfold removeFromStorage. now rewrite Hidx. }
    unfold quiet.
    destruct (removeFromStorage be fileUrl) as [es [thrown |]] eqn:Hr;
      cbn [fst snd] in *.
    + split; [reflexivity | split; [reflexivity | split; [| split]]].
      * intros [Hq _]. discriminate Hq.
      * intro Hidx. rewrite filter_app, (Hns Hidx). reflexivity.
      * intros t Hq. discriminate Hq.
    + destruct (deleteAnswer be) as [err | thrown] eqn:Hd; cbn [fst snd].
      * split; [reflexivity | split; [reflexivity | split; [| split]]].
        -- intros _. split; [reflexivity | split].
           ++ rewrite filter_app, Hnd. reflexivity.
           ++ apply in_or_app. right. right. now left.
        -- intro Hidx. rewrite filter_app, (Hns Hidx). reflexivity.
        -- intros t _ Ht. discriminate Ht.
      * split; [reflexivity | split; [reflexivity | split; [| split]]].
        -- intros [_ [e He]]. discriminate He.
        -- intro Hidx. rewrite filter_app, (Hns Hidx). reflexivity.
        -- intros t _ [= <-]. split; [reflexivity |].
           apply in_or_app. right. right. now left.
Qed.

Lemma executeDelete_outcomes_witness :
  attachments
    (fst (executeDelete (mkBackend (fun s => inr s) (Resolved None) (Resolved (Some "denied")))
            (mkView (Some "log-1") [sample_attachment] None
                    (Some ("a1", "https://elsewhere/u1/notes.pdf")) false)))
  = [].
Proof.
  apply (proj2 (executeDelete_outcomes
                  (mkBackend (fun s => inr s) (Resolved None) (Resolved (Some "denied")))
                  (mkView (Some "log-1") [sample_attachment] None
                          (Some ("a1", "https://elsewhere/u1/notes.pdf")) false))
           "a1" "https://elsewhere/u1/notes.pdf" "log-1" eq_refl eq_refl).
  split; [reflexivity | now exists (Some "denied")].
Defined.

End StudyDayFacts.

(* ================================================================== *)
(** ** The crop editor in doubles: what it computes *)
(* ================================================================== *)

Module DoubleFacts.

Import PrimFloat FloatOps SpecFloat CropEditor.
Import Double.



(** The order of the events of a gesture is handled in the program's
    arithmetic as it is over exact numbers: moves keep the snapshot taken
    at the press, the last move decides what is shown, and moves after a
    release are ignored. *)
Lemma after_append (ps qs : list pointer) (ed : editor) :
  after ed (ps ++ qs) = after (after ed ps) qs.
Proof. unfold after. apply fold_left_app. Qed.

Lemma moves_keep_interaction (moves : list pointer) (ed : editor) :
  Forall (fun p => is_move p = true) moves ->
  interactionRef (after ed moves) = interactionRef ed.
Proof.
  intro Hm. unfold after.
  revert ed. induction Hm as [| p moves Hp _ IH]; intro ed; cbn [fold_left].
  - reflexivity.
  - rewrite IH. destruct p as [m e | imgRef e |]; try discriminate Hp.
    cbn [handle].
    now destruct (handlePointerMove (interactionRef ed) imgRef e).
Qed.

Lemma last_move_decides (ed : editor) (m : mode) (e0 e : PointerEvent)
    (moves : list pointer) (rect : DOMRect) :
  Forall (fun p => is_move p = true) moves ->
  (rect_width rect =? 0)%float = false -> (rect_height rect =? 0)%float = false ->
  current (after ed (onPointerDown m e0 :: moves ++ [onPointerMove (Some rect) e]))
  = computeCrop (current ed) m
      ((clientX e - clientX e0) / rect_width rect * 100)%float
      ((clientY e - clientY e0) / rect_height rect * 100)%float.
Proof.
  intros Hm Hw Hh.
  change (onPointerDown m e0 :: moves ++ [onPointerMove (Some rect) e])
    with ([onPointerDown m e0] ++ moves ++ [onPointerMove (Some rect) e])%list.
  rewrite !after_append.
  set (ed1 := after ed [onPointerDown m e0]).
  assert (Hsnap : interactionRef (after ed1 moves)
                  = Some (mkInteraction (clientX e0) (clientY e0) (current ed) m)).
  { rewrite (moves_keep_interaction moves ed1 Hm). reflexivity. }
  cbn [after fold_left handle]. rewrite Hsnap.
  unfold handlePointerMove. rewrite Hw, Hh. reflexivity.
Qed.

Lemma moves_ignored_after_release (ed : editor) (ps moves : list pointer) :
  Forall (fun p => is_move p = true) moves ->
  after ed (ps ++ onPointerUp :: moves) = after ed (ps ++ [onPointerUp]).
Proof.
  intro Hm.
  change (onPointerUp :: moves) with ([onPointerUp] ++ moves)%list.
  rewrite app_assoc, (after_append (ps ++ [onPointerUp]) moves).
  assert (Hnone : interactionRef (after ed (ps ++ [onPointerUp])) = None).
  { rewrite after_append. reflexivity. }
  generalize dependent (after ed (ps ++ [onPointerUp])).
  unfold after.
  induction Hm as [| p moves Hp _ IH]; intros ed' Hnone; cbn [fold_left].
  - reflexivity.
  - destruct p as [m e | imgRef e |]; try discriminate Hp.
    cbn [handle]. rewrite Hnone. cbn [handlePointerMove]. now apply IH.
Qed.




(** Above 2147483647 the canvas takes its default size: the full rectangle
    of an image 4294967295 wide is saved 300 wide.  The full rectangle of
    a 400 x 400 image is saved 400 x 400. *)
Remark handleSave_default_width :
  handleSave (Some (mkImage 4294967295 100)) true initialCrop = Some (mkCanvas 300 100)
  /\ handleSave (Some (mkImage 400 400)) true initialCrop = Some (mkCanvas 400 400).
Proof. split; vm_compute; reflexivity. Qed.

(** C1: the bounds are lost on an image rendered 333 x 333.  From the
    initial rectangle, dragging [nw] by (2, 2) pixels gives a rectangle
    that satisfies the four bounds as the program evaluates them, although
    the exact values already have [x + width > 100]; dragging [nw] back by
    one pixel gives [x + width > 100] and [y + height > 100] in the
    program's arithmetic; dragging [nw] to the corner gives a width and a
    height above 100; and dragging the rectangle by (1, 1) pixels then
    gives [x < 0] and [y < 0]. *)
Theorem bounds_lost_in_doubles :
  let first := after initialEditor (drag nw 333 333 0 0 2 2) in
  let second := after first (drag nw 333 333 2 2 1 1) in
  let third := after second (drag nw 333 333 1 1 (-4) (-4)) in
  let fourth := after third (drag move 333 333 10 10 11 11) in
  in_bounds initialCrop = true
  /\ in_bounds (current first) = true
  /\ (exists qx qw : Q,
        exact (x (current first)) = Some qx /\ exact (width (current first)) = Some qw
        /\ (100 < qx + qw)%Q)
  /\ (x (current second) + width (current second) <=? 100)%float = false
  /\ (y (current second) + height (current second) <=? 100)%float = false
  /\ (100 <? width (current third))%float = true
  /\ (x (current fourth) <? 0)%float = true
  /\ (y (current fourth) <? 0)%float = true.
Proof.
  cbv zeta. split; [vm_compute; reflexivity |].
  split; [vm_compute; reflexivity |].
  split.
  - eexists. eexists. split; [vm_compute; reflexivity |].
    split; [vm_compute; reflexivity |]. vm_compute. reflexivity.
  - repeat split; vm_compute; reflexivity.
Qed.

(** C2: the minimum size is lost on an image rendered 300 x 300.  From the
    initial rectangle, dragging [nw] by (91, 91) pixels gives a rectangle
    within the bounds and at least 10 wide and high, in the program's
    arithmetic and exactly; dragging [nw] on by (300, 300) pixels gives a
    width and a height below 10.  The drag of (+50, +50) percent on [nw]
    from [{10, 10, 20, 20}] gives [y = 20] and [height = 10]. *)
Theorem minSize_lost_in_doubles :
  let first := after initialEditor (drag nw 300 300 0 0 91 91) in
  let second := after first (drag nw 300 300 91 91 391 391) in
  in_bounds (current first) = true /\ min_sized (current first) = true
  /\ (exists qx qw : Q,
        exact (x (current first)) = Some qx /\ exact (width (current first)) = Some qw
        /\ (0 <= qx)%Q /\ (qx + qw <= 100)%Q /\ (10 <= qw)%Q)
  /\ (width (current second) <? 10)%float = true
  /\ (height (current second) <? 10)%float = true
  /\ computeCrop (mkCrop 10 10 20 20) nw 50 50 = mkCrop 20 20 10 10.
Proof.
  cbv zeta. split; [vm_compute; reflexivity |].
  split; [vm_compute; reflexivity |].
  split.
  - eexists. eexists. split; [vm_compute; reflexivity |].
    split; [vm_compute; reflexivity |].
    repeat split; vm_compute; discriminate.
  - repeat split; vm_compute; reflexivity.
Qed.

(** X4: a handle writes only its own fields, for every starting rectangle
    and every delta, in the program's arithmetic: dragging the whole
    rectangle leaves [width] and [height] as they were, [ne] and [se]
    leave [x], [sw] and [se] leave [y].  The opposite edge of a [w] or
    [n] handle is recomputed and not kept: over an image rendered
    333 x 333, after [nw] is dragged by (2, 2) pixels from the initial
    rectangle, dragging it back by one pixel changes [x + width]. *)
Theorem handles_write_own_fields (c : crop) (deltaX deltaY : float) :
  (width (computeCrop c move deltaX deltaY) = width c
   /\ height (computeCrop c move deltaX deltaY) = height c)
  /\ (x (computeCrop c ne deltaX deltaY) = x c
      /\ x (computeCrop c se deltaX deltaY) = x c)
  /\ (y (computeCrop c sw deltaX deltaY) = y c
      /\ y (computeCrop c se deltaX deltaY) = y c)
  /\ (let first := computeCrop initialCrop nw ((2 - 0) / 333 * 100) ((2 - 0) / 333 * 100) in
      let second := computeCrop first nw ((1 - 2) / 333 * 100) ((1 - 2) / 333 * 100) in
      (x second + width second =? x first + width first)%float = false).
Proof.
  repeat split; vm_compute; reflexivity.
Qed.

End DoubleFacts.
